(** * eomap-classic: the DIB pixel decoder ([src/dib_reader.cpp])

    A shallow embedding of the bitmap reader: the bitfield decoder, the
    scale tables kept in the static [convert_table] array, the format
    checks, the channel set-up of [dib_reader::start] and the two row
    readers.  Integers are [Z]; a C array is a [list Z] read with stdpp's
    lookup and written with stdpp's insert, and every access outside the
    array (or through a null pointer) makes the operation return [None]:
    C gives such an access no meaning.  The same holds for the [int]
    arithmetic of the row readers: an overflow has no result. *)

From Stdlib Require Import ZArith Lia.
From stdpp Require Import base option list strings.

Local Open Scope Z_scope.

(** ** Machine integers *)

(** [std::uint32_t]: the low 32 bits. *)
Definition to_u32 (z : Z) : Z := Z.land z 0xFFFFFFFF.

(** [unsigned char], and the byte held by a [char]: the low 8 bits. *)
Definition to_u8 (z : Z) : Z := Z.land z 0xFF.

(** [std::size_t] (64 bits): a negative pointer difference wraps to a huge
    value. *)
Definition to_size_t (z : Z) : Z := z mod 2 ^ 64.

(** [int] (32 bits). *)
Definition INT_MIN : Z := - 2 ^ 31.
Definition INT_MAX : Z := 2 ^ 31 - 1.

Definition int_range (z : Z) : Prop := INT_MIN <= z <= INT_MAX.

(** The value of an [int] expression whose mathematical value is [z]: C
    gives a signed overflow no meaning, and so there is no value then. *)
Definition int_value (z : Z) : option Z :=
  if (INT_MIN <=? z) && (z <=? INT_MAX) then Some z else None.

(** ** The static conversion tables *)

Definition NUM_CONVERT_TABLES : Z := 8.

(** [static int convert_table[(2 << (NUM_CONVERT_TABLES + 2)) - 2]]. *)
Definition convert_table_size : Z := Z.shiftl 2 (NUM_CONVERT_TABLES + 2) - 2.

(** The two statics of the translation unit. *)
Record globals := Globals {
  convert_table_init : bool;
  convert_table : list Z
}.

(** Statics are zero-initialised. *)
Definition initial_globals : globals :=
  Globals false (replicate (Z.to_nat convert_table_size) 0).

(** [get_convert_table]: a pointer into [convert_table], kept as the index of
    the entry it points to. *)
Definition get_convert_table (bit : Z) : Z := Z.shiftl 2 bit - 2.

(** [p[i]] for a pointer [p] into an array [arr]; [None] outside the array. *)
Definition load (arr : list Z) (k : Z) : option Z :=
  if k <? 0 then None else arr !! Z.to_nat k.

(** [p[i] = v]; [None] outside the array. *)
Definition store (arr : list Z) (k v : Z) : option (list Z) :=
  if (0 <=? k) && (k <? Z.of_nat (length arr))
  then Some (<[Z.to_nat k := v]> arr)
  else None.

(** ** decode_bitfield *)

(** The portable branch: [while ((m & 1) == 0) { m >>= 1; ++shift; }].
    The loop is entered with [m <> 0] only, so [m] is a [positive]: its low
    bit is clear exactly for [q~0], whose right shift by one is [q]. *)
Fixpoint decode_bitfield_loop (m : positive) (shift : Z) : Z * Z :=
  match m with
  | xO q => decode_bitfield_loop q (shift + 1)
  | _ => (shift, Zpos m)
  end.

(** [decode_bitfield], returning [(shift_out, mask_out)].  [m] is a
    [uint32_t], never negative. *)
Definition decode_bitfield (m : Z) : Z * Z :=
  match m with
  | Zpos p => decode_bitfield_loop p 0
  | _ => (0, 0)
  end.

(** [__builtin_ctz]: the number of trailing zero bits of a non-zero word. *)
Fixpoint pos_ctz (p : positive) : Z :=
  match p with
  | xO q => 1 + pos_ctz q
  | _ => 0
  end.

Definition builtin_ctz (m : Z) : Z :=
  match m with
  | Zpos p => pos_ctz p
  | _ => 0
  end.

(** The [__GNUC__] branch: [shift = __builtin_ctz(m); m >>= shift;]. *)
Definition decode_bitfield_gnuc (m : Z) : Z * Z :=
  if m =? 0 then (0, 0)
  else let shift := builtin_ctz m in (shift, Z.shiftr m shift).

(** ** generate_scale_table *)

(** The loop [for (i = 0; i < entries; ++i) table[i] = i * 255 / (entries - 1)]
    with [n] iterations left; C's [/] truncates. *)
Fixpoint generate_scale_loop (n : nat) (table entries i : Z) (ct : list Z)
  : option (list Z) :=
  match n with
  | O => Some ct
  | S n' =>
      ct' ← store ct (table + i) (Z.quot (i * 255) (entries - 1));
      generate_scale_loop n' table entries (i + 1) ct'
  end.

Definition generate_scale_table (table entries : Z) (ct : list Z)
  : option (list Z) :=
  generate_scale_loop (Z.to_nat entries) table entries 0 ct.

(** ** The reader *)

(** Modelled from the spec: the [Compression] enumeration of
    [dib_reader.hpp], which is not among the sources.  The reader accepts
    [RGB] (uncompressed) and [BitFields]; [RLE8] stands for the others. *)
Inductive Compression := RGB | RLE8 | RLE4 | BitFields.

#[global] Instance Compression_eq_dec : EqDecision Compression.
Proof. solve_decision. Defined.

(** The members of [dib_reader].  The header accessors ([width()],
    [height()], [depth()], [compression()], the four masks, [stride()] and
    [data()]) are declared in [dib_reader.hpp], which is not among the
    sources: what they return is a field here, and [width()], [height()]
    and [stride()] are taken to return [int].  [data] is [data() - data_ptr].
    [data_ptr] is the supplied buffer and [data_size] its length.  A table
    pointer is [None] until [start] binds it (the spec: a null pointer), and
    [Some k] when it points to [convert_table[k]]. *)
Record dib_reader := DibReader {
  data_ptr : list Z;
  width : Z;
  height : Z;
  depth : Z;
  compression : Compression;
  red_mask : Z;
  green_mask : Z;
  blue_mask : Z;
  alpha_mask : Z;
  stride : Z;
  data : Z;
  rs : Z; gs : Z; bs : Z; as_ : Z;
  rm : Z; gm : Z; bm : Z; am : Z;
  rtable : option Z;
  gtable : option Z;
  btable : option Z;
  atable : option Z
}.

Definition data_size (rd : dib_reader) : Z := Z.of_nat (length (data_ptr rd)).

(** Modelled from the spec: [bpp()], the bytes per pixel of the declared
    depth (2, 3 or 4 for the depths 16, 24 and 32). *)
Definition bpp (rd : dib_reader) : Z := Z.shiftr (depth rd) 3.

(** Assignments to the members. *)
Definition set_r (sm : Z * Z) (rd : dib_reader) : dib_reader :=
  DibReader (data_ptr rd) (width rd) (height rd) (depth rd) (compression rd)
    (red_mask rd) (green_mask rd) (blue_mask rd) (alpha_mask rd)
    (stride rd) (data rd)
    (fst sm) (gs rd) (bs rd) (as_ rd) (snd sm) (gm rd) (bm rd) (am rd)
    (rtable rd) (gtable rd) (btable rd) (atable rd).

Definition set_g (sm : Z * Z) (rd : dib_reader) : dib_reader :=
  DibReader (data_ptr rd) (width rd) (height rd) (depth rd) (compression rd)
    (red_mask rd) (green_mask rd) (blue_mask rd) (alpha_mask rd)
    (stride rd) (data rd)
    (rs rd) (fst sm) (bs rd) (as_ rd) (rm rd) (snd sm) (bm rd) (am rd)
    (rtable rd) (gtable rd) (btable rd) (atable rd).

Definition set_b (sm : Z * Z) (rd : dib_reader) : dib_reader :=
  DibReader (data_ptr rd) (width rd) (height rd) (depth rd) (compression rd)
    (red_mask rd) (green_mask rd) (blue_mask rd) (alpha_mask rd)
    (stride rd) (data rd)
    (rs rd) (gs rd) (fst sm) (as_ rd) (rm rd) (gm rd) (snd sm) (am rd)
    (rtable rd) (gtable rd) (btable rd) (atable rd).

Definition set_a (sm : Z * Z) (rd : dib_reader) : dib_reader :=
  DibReader (data_ptr rd) (width rd) (height rd) (depth rd) (compression rd)
    (red_mask rd) (green_mask rd) (blue_mask rd) (alpha_mask rd)
    (stride rd) (data rd)
    (rs rd) (gs rd) (bs rd) (fst sm) (rm rd) (gm rd) (bm rd) (snd sm)
    (rtable rd) (gtable rd) (btable rd) (atable rd).

Definition set_tables (rt gt bt at_ : option Z) (rd : dib_reader) : dib_reader :=
  DibReader (data_ptr rd) (width rd) (height rd) (depth rd) (compression rd)
    (red_mask rd) (green_mask rd) (blue_mask rd) (alpha_mask rd)
    (stride rd) (data rd)
    (rs rd) (gs rd) (bs rd) (as_ rd) (rm rd) (gm rd) (bm rd) (am rd)
    rt gt bt at_.

(** ** check_format *)

Definition maxmask : Z := Z.shiftl 1 NUM_CONVERT_TABLES - 1.

(** [None] is the [nullptr] of an accepted format. *)
Definition check_format (rd : dib_reader) : option string :=
  if width rd <? 0 then Some "Image width less than zero"%string
  else if (width rd >? 0x40000000) || (height rd <? -0x40000000)
          || (height rd >? 0x40000000)
  then Some "Image dimensions out of bounds"%string
  else if negb (depth rd =? 16) && negb (depth rd =? 24)
          && negb (depth rd =? 32)
  then Some "Unsupported bit depth"%string
  else if negb (bool_decide (compression rd = RGB))
          && negb (bool_decide (compression rd = BitFields))
  then Some "Unsupported compression"%string
  else if (rm rd >? maxmask) || (gm rd >? maxmask) || (bm rd >? maxmask)
          || (am rd >? maxmask)
  then Some "Bit mask too long"%string
  else None.

(** ** start *)

(** The first half of [start]: shifts and masks of the four channels.  A
    depth outside the [switch] leaves the colour members as they were. *)
Definition start_masks (rd : dib_reader) : dib_reader :=
  if bool_decide (compression rd = BitFields) then
    set_a (decode_bitfield (alpha_mask rd))
      (set_b (decode_bitfield (blue_mask rd))
        (set_g (decode_bitfield (green_mask rd))
          (set_r (decode_bitfield (red_mask rd)) rd)))
  else
    let rd := set_a (0, 0) rd in
    if depth rd =? 16 then
      set_b (decode_bitfield 0x0000001F)
        (set_g (decode_bitfield 0x000003E0)
          (set_r (decode_bitfield 0x00007C00) rd))
    else if (depth rd =? 24) || (depth rd =? 32) then
      set_b (decode_bitfield 0x000000FF)
        (set_g (decode_bitfield 0x0000FF00)
          (set_r (decode_bitfield 0x00FF0000) rd))
    else rd.

(** [~(0xFFFFFFFFU << (i+1)) & 0xFFFFFFFFU]. *)
Definition width_mask (i : Z) : Z :=
  Z.land (Z.lnot (to_u32 (Z.shiftl 0xFFFFFFFF (i + 1)))) 0xFFFFFFFF.

(** [if (m == mask) xtable = table;] *)
Definition bind_table (m mask table : Z) (old : option Z) : option Z :=
  if m =? mask then Some table else old.

(** The loop [for (int i = 0; i < NUM_CONVERT_TABLES; ++i)] of [start], with
    [n] iterations left; [init] is [convert_table_init], which the loop only
    reads. *)
Fixpoint start_loop (n : nat) (i : Z) (init : bool) (rd : dib_reader)
    (ct : list Z) : option (dib_reader * list Z) :=
  match n with
  | O => Some (rd, ct)
  | S n' =>
      let mask := width_mask i in
      let table := get_convert_table i in
      let entries := Z.shiftl 1 (i + 1) in
      ct' ← (if negb init then generate_scale_table table entries ct
             else Some ct);
      let rd' :=
        set_tables (bind_table (rm rd) mask table (rtable rd))
                   (bind_table (gm rd) mask table (gtable rd))
                   (bind_table (bm rd) mask table (btable rd))
                   (bind_table (am rd) mask table (atable rd)) rd in
      start_loop n' (i + 1) init rd' ct'
  end.

Definition start (rd : dib_reader) (g : globals)
  : option (dib_reader * globals) :=
  '(rd', ct') ← start_loop (Z.to_nat NUM_CONVERT_TABLES) 0
                 (convert_table_init g) (start_masks rd) (convert_table g);
  Some (rd', Globals true ct').

(** ** Reading a packed pixel *)

(** Modelled from the spec: [int_pack_16_le] and [int_pack_32_le] of
    [int_pack.hpp] (not among the sources) pack bytes little-endian. *)
Definition int_pack_16_le (a b : Z) : Z :=
  Z.lor (to_u8 a) (Z.shiftl (to_u8 b) 8).

Definition int_pack_32_le (a b c d : Z) : Z :=
  Z.lor (Z.lor (to_u8 a) (Z.shiftl (to_u8 b) 8))
        (Z.lor (Z.shiftl (to_u8 c) 16) (Z.shiftl (to_u8 d) 24)).

(** [data[offset + k]] for a [size_t] offset. *)
Definition byte_at (buf : list Z) (offset k : Z) : option Z :=
  load buf (to_size_t (offset + k)).

(** A function pointer: [None] is [nullptr]. *)
Definition read_fn_t : Type := option (list Z → Z → option Z).

(** The array [read_fns[4]] of [read_fn_for_bpp]. *)
Definition read_fns : list read_fn_t :=
  [ None;
    (* 16-bit (bpp = 2) *)
    Some (λ buf offset,
      a ← byte_at buf offset 0; b ← byte_at buf offset 1;
      Some (to_u32 (int_pack_16_le a b)));
    (* 24-bit (bpp = 3) *)
    Some (λ buf offset,
      a ← byte_at buf offset 0; b ← byte_at buf offset 1;
      c ← byte_at buf offset 2;
      Some (int_pack_32_le a b c 0));
    (* 32-bit (bpp = 4) *)
    Some (λ buf offset,
      a ← byte_at buf offset 0; b ← byte_at buf offset 1;
      c ← byte_at buf offset 2; d ← byte_at buf offset 3;
      Some (int_pack_32_le a b c d)) ].

(** [return read_fns[bpp];]: [None] when [bpp] is no index of the array. *)
Definition read_fn_for_bpp (bpp : Z) : option read_fn_t :=
  if bpp <? 0 then None else read_fns !! Z.to_nat bpp.

(** A call through the pointer. *)
Definition call (f : read_fn_t) (buf : list Z) (offset : Z) : option Z :=
  g ← f; g buf offset.

(** [xtable[idx]]: through a null pointer there is nothing to read. *)
Definition table_at (ct : list Z) (table : option Z) (idx : Z) : option Z :=
  t ← table; load ct (t + idx).

(** [static_cast<char>(((r|g|b) != 0) * 0xFF)] on the bytes of the three
    [char]s (promotion to [int] keeps a zero zero and a non-zero non-zero). *)
Definition synth_alpha (r g b : Z) : Z :=
  to_u8 ((if negb (Z.lor (Z.lor r g) b =? 0) then 1 else 0) * 0xFF).

(** The pixel loop of [read_line_argb] with [n] pixels left; [linebuf] is
    the pointer of that name as an offset from [data_ptr].  The result is
    what has been written through [outbuf]. *)
Fixpoint read_line_argb_loop (rd : dib_reader) (ct : list Z)
    (read_fn : read_fn_t) (n : nat) (linebuf : Z) : option (list Z) :=
  match n with
  | O => Some []
  | S n' =>
      let pixel_offset := to_size_t linebuf in
      pixel ← (if pixel_offset <? to_size_t (data_size rd + bpp rd)
               then call read_fn (data_ptr rd) pixel_offset
               else Some 0);
      r ← to_u8 <$> table_at ct (rtable rd) (Z.land (Z.shiftr pixel (rs rd)) (rm rd));
      g ← to_u8 <$> table_at ct (gtable rd) (Z.land (Z.shiftr pixel (gs rd)) (gm rd));
      b ← to_u8 <$> table_at ct (btable rd) (Z.land (Z.shiftr pixel (bs rd)) (bm rd));
      let a := synth_alpha r g b in
      rest ← read_line_argb_loop rd ct read_fn n' (linebuf + bpp rd);
      Some (b :: g :: r :: a :: rest)
  end.

(** [int line = ((height() < 0) ? row : height() - 1 - row);] for the [int]
    parameter [row]: [height() - 1] and then [... - row] are [int]
    subtractions. *)
Definition source_line (rd : dib_reader) (row : Z) : option Z :=
  row ← int_value row;
  h ← int_value (height rd);
  if h <? 0 then Some row
  else h1 ← int_value (h - 1); int_value (h1 - row).

(** [const char* linebuf = data() + stride() * line;]: the [int] product
    [stride() * line], as an offset from [data_ptr]. *)
Definition line_offset (rd : dib_reader) (line : Z) : option Z :=
  s ← int_value (stride rd);
  offset ← int_value (s * line);
  Some (data rd + offset).

Definition read_line_argb (rd : dib_reader) (ct : list Z) (row : Z)
  : option (list Z) :=
  line ← source_line rd row;
  linebuf ← line_offset rd line;
  read_fn ← read_fn_for_bpp (bpp rd);
  read_line_argb_loop rd ct read_fn (Z.to_nat (width rd)) linebuf.

(** The pixel loop of [read_line_abgr]. *)
Fixpoint read_line_abgr_loop (rd : dib_reader) (ct : list Z)
    (read_fn : read_fn_t) (n : nat) (linebuf : Z) : option (list Z) :=
  match n with
  | O => Some []
  | S n' =>
      let pixel_offset := to_size_t linebuf in
      pixel ← (if pixel_offset <? to_size_t (data_size rd + bpp rd)
               then call read_fn (data_ptr rd) pixel_offset
               else Some 0);
      r ← to_u8 <$> table_at ct (rtable rd) (Z.land (Z.shiftr pixel (rs rd)) (rm rd));
      g ← to_u8 <$> table_at ct (gtable rd) (Z.land (Z.shiftr pixel (gs rd)) (gm rd));
      b ← to_u8 <$> table_at ct (btable rd) (Z.land (Z.shiftr pixel (bs rd)) (bm rd));
      let a := synth_alpha r g b in
      rest ← read_line_abgr_loop rd ct read_fn n' (linebuf + bpp rd);
      Some (r :: g :: b :: a :: rest)
  end.

Definition read_line_abgr (rd : dib_reader) (ct : list Z) (row : Z)
  : option (list Z) :=
  line ← source_line rd row;
  linebuf ← line_offset rd line;
  read_fn ← read_fn_for_bpp (bpp rd);
  read_line_abgr_loop rd ct read_fn (Z.to_nat (width rd)) linebuf.

(** ** Views used in the statements *)

(** The entries that the iteration [i = w - 1] of the loop of [start] hands
    to [generate_scale_table]: [entries = 1 << w] entries from
    [get_convert_table (w - 1)] on. *)
Definition scale_table (ct : list Z) (w : Z) : list Z :=
  take (Z.to_nat (Z.shiftl 1 w))
       (drop (Z.to_nat (get_convert_table (w - 1))) ct).

(** What the [n] iterations from [i] on of the loop of [start] leave in one
    table pointer whose channel mask is [m]. *)
Fixpoint bind_tables (n : nat) (i m : Z) (old : option Z) : option Z :=
  match n with
  | O => old
  | S n' =>
      bind_tables n' (i + 1) m
        (bind_table m (width_mask i) (get_convert_table i) old)
  end.

(** The fetch of one pixel word in the row readers: the bound check and the
    call through [read_fn]. *)
Definition fetch_pixel (rd : dib_reader) (read_fn : read_fn_t) (linebuf : Z)
  : option Z :=
  let pixel_offset := to_size_t linebuf in
  if pixel_offset <? to_size_t (data_size rd + bpp rd)
  then call read_fn (data_ptr rd) pixel_offset
  else Some 0.

(** The byte one colour channel contributes: [static_cast<char>(table[(pixel
    >> shift) & mask])]. *)
Definition channel_byte (ct : list Z) (table : option Z) (shift mask pixel : Z)
  : option Z :=
  to_u8 <$> table_at ct table (Z.land (Z.shiftr pixel shift) mask).

(** The format checks in the words of the specification: the width of a
    decoded mask is the number of bits up to its highest set bit. *)
Definition mask_bits (m : Z) : Z := if m <=? 0 then 0 else Z.log2 m + 1.

Definition validate_spec (rd : dib_reader) : option string :=
  if bool_decide (width rd < 0)
  then Some "Image width less than zero"%string
  else if bool_decide (2 ^ 30 < width rd \/ 2 ^ 30 < Z.abs (height rd))
  then Some "Image dimensions out of bounds"%string
  else if bool_decide (depth rd <> 16 /\ depth rd <> 24 /\ depth rd <> 32)
  then Some "Unsupported bit depth"%string
  else if bool_decide (compression rd <> RGB /\ compression rd <> BitFields)
  then Some "Unsupported compression"%string
  else if bool_decide (8 < mask_bits (rm rd) \/ 8 < mask_bits (gm rd)
                       \/ 8 < mask_bits (bm rd) \/ 8 < mask_bits (am rd))
  then Some "Bit mask too long"%string
  else None.

Definition dims_ok (rd : dib_reader) : Prop :=
  0 <= width rd <= 2 ^ 30 /\ Z.abs (height rd) <= 2 ^ 30.

Definition depth_ok (rd : dib_reader) : Prop :=
  depth rd = 16 \/ depth rd = 24 \/ depth rd = 32.

Definition compression_ok (rd : dib_reader) : Prop :=
  compression rd = RGB \/ compression rd = BitFields.

Definition masks_ok (rd : dib_reader) : Prop :=
  mask_bits (rm rd) <= 8 /\ mask_bits (gm rd) <= 8
  /\ mask_bits (bm rd) <= 8 /\ mask_bits (am rd) <= 8.

(** The five reasons, in the order of the checks. *)
Definition reasons : list string :=
  [ "Image width less than zero"; "Image dimensions out of bounds";
    "Unsupported bit depth"; "Unsupported compression";
    "Bit mask too long" ]%string.

(** The alpha rule in the words of the specification: 0xFF if any of the
    three colour bytes is non-zero, 0x00 otherwise. *)
Definition alpha_of (c0 c1 c2 : Z) : Z :=
  if bool_decide (c0 = 0 /\ c1 = 0 /\ c2 = 0) then 0x00 else 0xFF.

(** Every one of the [n] pixels of an output row carries the alpha of its
    own three colour bytes. *)
Definition alpha_rule (out : list Z) (n : nat) : Prop :=
  forall i : nat, (i < n)%nat ->
    exists c0 c1 c2,
      out !! (4 * i)%nat = Some c0
      /\ out !! (4 * i + 1)%nat = Some c1
      /\ out !! (4 * i + 2)%nat = Some c2
      /\ out !! (4 * i + 3)%nat = Some (alpha_of c0 c1 c2).

(** A decoded mask that matches none of the eight widths of the loop of
    [start]: 0, or not [2^w - 1] for a [w] in 1..8. *)
Definition no_table_mask (m : Z) : Prop :=
  forall w, 1 <= w <= 8 -> m <> 2 ^ w - 1.

(** Pixel [i] of the output row [out] of [read_line_argb] (blue, green, red,
    alpha) is the decoding of the pixel word [p]: each colour byte is the
    byte of its channel for [p], and the alpha byte follows the alpha rule
    on the three. *)
Definition argb_pixel_of (rd : dib_reader) (ct out : list Z) (i : nat) (p : Z)
  : Prop :=
  exists r g b,
    channel_byte ct (rtable rd) (rs rd) (rm rd) p = Some r
    /\ channel_byte ct (gtable rd) (gs rd) (gm rd) p = Some g
    /\ channel_byte ct (btable rd) (bs rd) (bm rd) p = Some b
    /\ out !! (4 * i)%nat = Some b
    /\ out !! (4 * i + 1)%nat = Some g
    /\ out !! (4 * i + 2)%nat = Some r
    /\ out !! (4 * i + 3)%nat = Some (alpha_of r g b).

(** The same for [read_line_abgr] (red, green, blue, alpha). *)
Definition abgr_pixel_of (rd : dib_reader) (ct out : list Z) (i : nat) (p : Z)
  : Prop :=
  exists r g b,
    channel_byte ct (rtable rd) (rs rd) (rm rd) p = Some r
    /\ channel_byte ct (gtable rd) (gs rd) (gm rd) p = Some g
    /\ channel_byte ct (btable rd) (bs rd) (bm rd) p = Some b
    /\ out !! (4 * i)%nat = Some r
    /\ out !! (4 * i + 1)%nat = Some g
    /\ out !! (4 * i + 2)%nat = Some b
    /\ out !! (4 * i + 3)%nat = Some (alpha_of r g b).

(** The bits of a pixel word that the three colour channels extract. *)
Definition colour_bits (rd : dib_reader) : Z :=
  Z.lor (Z.lor (Z.shiftl (rm rd) (rs rd)) (Z.shiftl (gm rd) (gs rd)))
        (Z.shiftl (bm rd) (bs rd)).

(** ** Readers used as examples *)

(** A reader before [start]: the header values, and the members that the
    constructor does not set (shifts and masks, here 0; table pointers,
    null). *)
Definition new_reader (buf : list Z) (w h d : Z) (c : Compression)
    (rmask gmask bmask amask st dt : Z) : dib_reader :=
  DibReader buf w h d c rmask gmask bmask amask st dt
    0 0 0 0 0 0 0 0 None None None None.

(** One 24-bit pixel [(0x10, 0x20, 0x30)] and the padding byte of its row. *)
Definition reader_24_padded : dib_reader :=
  new_reader [0x10; 0x20; 0x30; 0] 1 1 24 RGB 0 0 0 0 4 0.

(** A row of four 24-bit pixels (12 bytes, no padding); the last pixel is
    [(0x10, 0x20, 0x30)] and ends the buffer. *)
Definition reader_24_row : dib_reader :=
  new_reader [1; 2; 3; 4; 5; 6; 7; 8; 9; 0x10; 0x20; 0x30]
    4 1 24 RGB 0 0 0 0 12 0.

(** Four scanlines of one 16-bit pixel each (stride 4), stored top-down
    (height -4) and bottom-up (height 4) over the same bytes. *)
Definition scanlines_16 : list Z :=
  [0x1F; 0x00; 0; 0;  0xE0; 0x03; 0; 0;  0x00; 0x7C; 0; 0;  0xFF; 0x7F; 0; 0].

Definition reader_16_top_down : dib_reader :=
  new_reader scanlines_16 1 (-4) 16 RGB 0 0 0 0 4 0.

Definition reader_16_bottom_up : dib_reader :=
  new_reader scanlines_16 1 4 16 RGB 0 0 0 0 4 0.

(** A 16-bit image declared two rows high whose buffer holds the first row
    only. *)
Definition reader_16_truncated : dib_reader :=
  new_reader [0xFF; 0x7F; 0; 0] 1 (-2) 16 RGB 0 0 0 0 4 0.

(** A 32-bit image of one pixel. *)
Definition reader_32 : dib_reader :=
  new_reader [0x10; 0x20; 0x30; 0x40] 1 1 32 RGB 0 0 0 0 4 0.

(** A 16-bit BitFields image without a red channel (red mask 0). *)
Definition reader_no_red : dib_reader :=
  new_reader [0xFF; 0xFF; 0; 0] 1 1 16 BitFields 0 0x03E0 0x001F 0 4 0.

(** A 16-bit BitFields image, 5-5-5 colour with one alpha bit on top,
    stored top-down: the first pixel has the alpha bit only, the second the
    blue bits only. *)
Definition reader_1555 : dib_reader :=
  new_reader [0x00; 0x80; 0; 0;  0x1F; 0x00; 0; 0]
    1 (-2) 16 BitFields 0x7C00 0x03E0 0x001F 0x8000 4 0.

(** A 16-bit BitFields image, stored top-down, whose red mask (bits 10 to
    15) covers the bit of its alpha mask (bit 15): the first pixel is the
    word 0x8000, the second the word 0. *)
Definition reader_overlap : dib_reader :=
  new_reader [0x00; 0x80; 0; 0;  0; 0; 0; 0]
    1 (-2) 16 BitFields 0xFC00 0x03E0 0x001F 0x8000 4 0.

(** [start] on a fresh process, then one of the row readers on [row]. *)
Definition started (rd : dib_reader) : option (dib_reader * globals) :=
  start rd initial_globals.

Definition decode_row_argb (rd : dib_reader) (row : Z) : option (list Z) :=
  '(rd', g') ← started rd; read_line_argb rd' (convert_table g') row.

Definition decode_row_abgr (rd : dib_reader) (row : Z) : option (list Z) :=
  '(rd', g') ← started rd; read_line_abgr rd' (convert_table g') row.

(** ** Views used in the further statements *)

(** The eight scale tables are in place: entry [j] of the table of width
    [w] holds [j * 255 / (2^w - 1)]. *)
Definition tables_built (ct : list Z) : Prop :=
  forall w j, 1 <= w <= 8 -> 0 <= j < 2 ^ w ->
    load ct (get_convert_table (w - 1) + j) = Some (j * 255 / (2 ^ w - 1)).

(** The statics as [start] finds them in a running process: the array has
    its declared size and, once [convert_table_init] is set, the tables are
    in place. *)
Definition globals_ok (g : globals) : Prop :=
  Z.of_nat (length (convert_table g)) = convert_table_size
  /\ (convert_table_init g = true -> tables_built (convert_table g)).

(** A table pointer that points to the start of one of the eight tables. *)
Definition points_to_table (t : option Z) : Prop :=
  exists w, 1 <= w <= 8 /\ t = Some (get_convert_table (w - 1)).

(** An output row with the first and the third byte of every pixel
    exchanged. *)
Fixpoint swap_rb (out : list Z) : list Z :=
  match out with
  | c0 :: c1 :: c2 :: c3 :: rest => c2 :: c1 :: c0 :: c3 :: swap_rb rest
  | _ => out
  end.

(** The reader over a header that declares the height [h]. *)
Definition with_height (h : Z) (rd : dib_reader) : dib_reader :=
  DibReader (data_ptr rd) (width rd) h (depth rd) (compression rd)
    (red_mask rd) (green_mask rd) (blue_mask rd) (alpha_mask rd)
    (stride rd) (data rd)
    (rs rd) (gs rd) (bs rd) (as_ rd) (rm rd) (gm rd) (bm rd) (am rd)
    (rtable rd) (gtable rd) (btable rd) (atable rd).

(** The byte of the buffer at an index (0 outside the buffer). *)
Definition buffer_byte (buf : list Z) (k : Z) : Z :=
  to_u8 (default 0 (buf !! Z.to_nat k)).

(** The output row of [n] uncompressed 24-bit pixels stored from offset
    [lb] on: the three bytes of each pixel as they are stored (blue, green,
    red) and the alpha of the three. *)
Fixpoint bgra_of_24 (buf : list Z) (n : nat) (lb : Z) : list Z :=
  match n with
  | O => []
  | S n' =>
      let b := buffer_byte buf lb in
      let g := buffer_byte buf (lb + 1) in
      let r := buffer_byte buf (lb + 2) in
      b :: g :: r :: alpha_of b g r :: bgra_of_24 buf n' (lb + 3)
  end.

(** The 5-bit field at bit [k] of a word, scaled to a byte. *)
Definition field5 (p k : Z) : Z := Z.land (Z.shiftr p k) 31 * 255 / 31.

(** The output row of [n] uncompressed 16-bit pixels stored from offset
    [lb] on: the 5-5-5 fields of the little-endian word of each pixel. *)
Fixpoint bgra_of_16 (buf : list Z) (n : nat) (lb : Z) : list Z :=
  match n with
  | O => []
  | S n' =>
      let p := int_pack_16_le (buffer_byte buf lb) (buffer_byte buf (lb + 1)) in
      let b := field5 p 0 in
      let g := field5 p 5 in
      let r := field5 p 10 in
      b :: g :: r :: alpha_of b g r :: bgra_of_16 buf n' (lb + 2)
  end.

(** The distance from the lowest to the highest set bit of a header mask,
    both included (0 for the mask 0). *)
Definition mask_span (m : Z) : Z :=
  if m <=? 0 then 0 else Z.log2 m - builtin_ctz m + 1.

(** * Properties *)

(** ** Machine integers and array accesses *)

Lemma to_u8_range z : 0 <= to_u8 z < 256.
Proof.
  unfold to_u8. change 0xFF with (Z.ones 8). rewrite Z.land_ones by lia.
  apply Z.mod_pos_bound. lia.
Qed.

Lemma to_u8_small z : 0 <= z < 256 -> to_u8 z = z.
Proof.
  intros H. unfold to_u8. change 0xFF with (Z.ones 8).
  rewrite Z.land_ones by lia. apply Z.mod_small. lia.
Qed.

Lemma to_size_t_small z : 0 <= z < 2 ^ 64 -> to_size_t z = z.
Proof. intros H. unfold to_size_t. apply Z.mod_small. lia. Qed.

Lemma load_Some arr k v :
  load arr k = Some v -> 0 <= k < Z.of_nat (length arr).
Proof.
  unfold load. destruct (Z.ltb_spec k 0) as [|Hk]; [discriminate|].
  intros H. apply lookup_lt_Some in H. lia.
Qed.

Lemma load_outside arr k :
  Z.of_nat (length arr) <= k -> load arr k = None.
Proof.
  intros H. unfold load. destruct (Z.ltb_spec k 0); [reflexivity|].
  apply lookup_ge_None. lia.
Qed.

Lemma store_Some arr k v :
  0 <= k < Z.of_nat (length arr) ->
  store arr k v = Some (<[Z.to_nat k := v]> arr).
Proof.
  intros [H1 H2]. unfold store.
  destruct (Z.leb_spec 0 k); [|lia].
  destruct (Z.ltb_spec k (Z.of_nat (length arr))); [reflexivity|lia].
Qed.

Lemma store_inv arr k v arr' :
  store arr k v = Some arr' ->
  0 <= k < Z.of_nat (length arr) /\ arr' = <[Z.to_nat k := v]> arr.
Proof.
  unfold store. destruct (Z.leb_spec 0 k); simpl; [|discriminate].
  destruct (Z.ltb_spec k (Z.of_nat (length arr))); [|discriminate].
  intros [= <-]. split; [lia|reflexivity].
Qed.

Lemma load_store_same arr k v arr' :
  store arr k v = Some arr' -> load arr' k = Some v.
Proof.
  intros H. apply store_inv in H as [Hk ->]. unfold load.
  destruct (Z.ltb_spec k 0); [lia|].
  apply list_lookup_insert_eq. lia.
Qed.

Lemma load_store_other arr k v arr' j :
  store arr k v = Some arr' -> j <> k -> load arr' j = load arr j.
Proof.
  intros H Hne. apply store_inv in H as [Hk ->]. unfold load.
  destruct (Z.ltb_spec j 0); [reflexivity|].
  apply list_lookup_insert_ne. lia.
Qed.

Lemma length_store arr k v arr' :
  store arr k v = Some arr' -> length arr' = length arr.
Proof. intros H. apply store_inv in H as [_ ->]. apply length_insert. Qed.

(** ** decode_bitfield *)

Lemma pos_ctz_nonneg p : 0 <= pos_ctz p.
Proof. induction p; simpl; lia. Qed.

(** The loop adds the number of trailing zeros to the shift and leaves the
    odd part of the mask. *)
Lemma decode_bitfield_loop_spec p s :
  exists mk,
    decode_bitfield_loop p s = (s + pos_ctz p, mk)
    /\ Z.odd mk = true /\ 0 < mk
    /\ Z.shiftl mk (pos_ctz p) = Zpos p.
Proof.
  revert s. induction p as [p IH|p IH|]; intros s.
  - exists (Zpos p~1). simpl. rewrite Z.add_0_r. auto with lia.
  - destruct (IH (s + 1)) as (mk & Heq & Hodd & Hpos & Hsh).
    exists mk. simpl. rewrite Heq. repeat split; try assumption.
    + f_equal. lia.
    + pose proof (pos_ctz_nonneg p).
      rewrite Z.shiftl_mul_pow2 in * by lia.
      rewrite Z.pow_add_r, Z.pow_1_r by lia. lia.
  - exists 1. simpl. rewrite Z.add_0_r. auto with lia.
Qed.

Lemma decode_bitfield_gnuc_eq m : 0 <= m -> decode_bitfield_gnuc m = decode_bitfield m.
Proof.
  intros Hm. destruct m as [|p|p]; [reflexivity| |lia].
  unfold decode_bitfield_gnuc, decode_bitfield, builtin_ctz.
  change (Z.pos p =? 0) with false. cbv iota.
  destruct (decode_bitfield_loop_spec p 0) as (mk & -> & _ & _ & Hsh).
  pose proof (pos_ctz_nonneg p). simpl. f_equal.
  rewrite <- Hsh at 1. rewrite Z.shiftr_shiftl_l by lia.
  rewrite Z.sub_diag. apply Z.shiftl_0_r.
Qed.

(** A run of set bits moved up by [k] decodes to the shift [k] and the run. *)
Lemma decode_bitfield_shiftl mk k :
  0 < mk -> Z.odd mk = true -> 0 <= k ->
  decode_bitfield (Z.shiftl mk k) = (k, mk).
Proof.
  intros Hpos Hodd Hk.
  assert (Hm : 0 < Z.shiftl mk k).
  { rewrite Z.shiftl_mul_pow2 by lia. apply Z.mul_pos_pos; [lia|].
    apply Z.pow_pos_nonneg; lia. }
  destruct (Z.shiftl mk k) as [|p|p] eqn:E; try lia.
  unfold decode_bitfield.
  destruct (decode_bitfield_loop_spec p 0) as (mk' & -> & Hodd' & Hpos' & Hsh).
  pose proof (pos_ctz_nonneg p) as Hc. rewrite <- E in Hsh. simpl.
  assert (Hkc : pos_ctz p = k).
  { destruct (Z.lt_trichotomy (pos_ctz p) k) as [Hlt|[Heq|Hgt]]; [|exact Heq|].
    - assert (Hb : Z.testbit (Z.shiftl mk' (pos_ctz p)) (pos_ctz p) = true).
      { rewrite Z.shiftl_spec by lia. rewrite Z.sub_diag.
        rewrite Z.bit0_odd. exact Hodd'. }
      rewrite Hsh, Z.shiftl_spec_low in Hb by lia. discriminate.
    - assert (Hb : Z.testbit (Z.shiftl mk k) k = true).
      { rewrite Z.shiftl_spec by lia. rewrite Z.sub_diag.
        rewrite Z.bit0_odd. exact Hodd. }
      rewrite <- Hsh, Z.shiftl_spec_low in Hb by lia. discriminate. }
  rewrite Hkc in *. f_equal.
  rewrite !Z.shiftl_mul_pow2 in Hsh by lia.
  assert (0 < 2 ^ k) by (apply Z.pow_pos_nonneg; lia). nia.
Qed.

(** C5: [decode_bitfield 0 = (0, 0)]; for every non-zero 32-bit mask (a
    single contiguous run of set bits in particular) the shift returned is
    the index of the lowest set bit and the reduced mask, shifted left by it,
    is the mask again.  Both branches of the [#ifdef] compute the same. *)
Theorem decode_bitfield_lowest_bit :
  decode_bitfield 0 = (0, 0) /\
  forall m, 0 < m < 2 ^ 32 ->
    let shift := fst (decode_bitfield m) in
    let mask := snd (decode_bitfield m) in
    0 <= shift < 32
    /\ Z.testbit m shift = true
    /\ (forall j, 0 <= j < shift -> Z.testbit m j = false)
    /\ Z.shiftl mask shift = m
    /\ decode_bitfield_gnuc m = decode_bitfield m.
Proof.
  split; [reflexivity|]. intros m [Hm0 Hm32].
  destruct m as [|p|p]; try lia.
  cbv zeta. rewrite decode_bitfield_gnuc_eq by lia. unfold decode_bitfield.
  destruct (decode_bitfield_loop_spec p 0) as (mk & -> & Hodd & Hpos & Hsh).
  pose proof (pos_ctz_nonneg p) as Hc. simpl.
  repeat split; try lia.
  - destruct (Z.lt_ge_cases (pos_ctz p) 32) as [|Hge]; [assumption|].
    rewrite Z.shiftl_mul_pow2 in Hsh by lia.
    assert (2 ^ 32 <= 2 ^ pos_ctz p) by (apply Z.pow_le_mono_r; lia). nia.
  - rewrite <- Hsh. rewrite Z.shiftl_spec by lia. rewrite Z.sub_diag.
    rewrite Z.bit0_odd. exact Hodd.
  - intros j Hj. rewrite <- Hsh. apply Z.shiftl_spec_low. lia.
  - exact Hsh.
Qed.

Lemma decode_bitfield_lowest_bit_witness :
  0 < 0x7C00 < 2 ^ 32 /\
  fst (decode_bitfield 0x7C00) = 10 /\
  Z.shiftl (snd (decode_bitfield 0x7C00)) (fst (decode_bitfield 0x7C00)) = 0x7C00.
Proof.
  assert (H : 0 < 0x7C00 < 2 ^ 32) by (split; reflexivity).
  split; [exact H|]. split; [reflexivity|].
  exact (proj1 (proj2 (proj2 (proj2 (proj2 decode_bitfield_lowest_bit 0x7C00 H))))).
Defined.

(** ** The conversion tables *)

Lemma get_convert_table_eq k : 0 <= k -> get_convert_table k = 2 ^ (k + 1) - 2.
Proof.
  intros Hk. unfold get_convert_table.
  rewrite Z.shiftl_mul_pow2, Z.pow_add_r, Z.pow_1_r by lia. lia.
Qed.

(** A table ends where the next one starts. *)
Lemma get_convert_table_next k :
  0 <= k -> get_convert_table (k + 1) = get_convert_table k + Z.shiftl 1 (k + 1).
Proof.
  intros Hk. rewrite !get_convert_table_eq by lia.
  rewrite Z.shiftl_mul_pow2 by lia.
  replace (k + 1 + 1) with (Z.succ (k + 1)) by lia.
  rewrite Z.pow_succ_r by lia. lia.
Qed.

Lemma get_convert_table_mono j k :
  0 <= j <= k -> get_convert_table j <= get_convert_table k.
Proof.
  intros H. rewrite !get_convert_table_eq by lia.
  assert (2 ^ (j + 1) <= 2 ^ (k + 1)) by (apply Z.pow_le_mono_r; lia). lia.
Qed.

Lemma get_convert_table_nonneg k : 0 <= k -> 0 <= get_convert_table k.
Proof.
  intros Hk. pose proof (get_convert_table_mono 0 k ltac:(lia)) as H.
  change (get_convert_table 0) with 0 in H. exact H.
Qed.

Lemma convert_table_size_eq : convert_table_size = 2046.
Proof. reflexivity. Qed.

(** The writes of [generate_scale_table]: [n] entries from [table + i] on,
    all inside the array, and nothing else. *)
Lemma generate_scale_loop_spec n table entries i ct :
  0 <= table + i ->
  table + i + Z.of_nat n <= Z.of_nat (length ct) ->
  exists ct',
    generate_scale_loop n table entries i ct = Some ct'
    /\ length ct' = length ct
    /\ (forall j, i <= j < i + Z.of_nat n ->
          load ct' (table + j) = Some (Z.quot (j * 255) (entries - 1)))
    /\ (forall k, ~ (table + i <= k < table + i + Z.of_nat n) ->
          load ct' k = load ct k).
Proof.
  revert i ct. induction n as [|n IH]; intros i ct Hlo Hhi.
  - exists ct. simpl. repeat split; intros; try reflexivity; lia.
  - simpl generate_scale_loop.
    assert (Hst : store ct (table + i) (Z.quot (i * 255) (entries - 1))
                  = Some (<[Z.to_nat (table + i) := Z.quot (i * 255) (entries - 1)]> ct))
      by (apply store_Some; lia).
    rewrite Hst. simpl.
    destruct (IH (i + 1) (<[Z.to_nat (table + i) := Z.quot (i * 255) (entries - 1)]> ct))
      as (ct' & Hrun & Hlen & Hin & Hout).
    + lia.
    + rewrite length_insert. lia.
    + exists ct'. split; [exact Hrun|]. split.
      { rewrite Hlen. apply length_insert. }
      split.
      * intros j Hj. destruct (Z.eq_dec j i) as [->|Hne].
        -- rewrite Hout by lia. eapply load_store_same. exact Hst.
        -- apply Hin. lia.
      * intros k Hk. rewrite Hout by lia.
        eapply load_store_other; [exact Hst|lia].
Qed.

Lemma generate_scale_table_spec table entries ct :
  0 <= table -> 0 <= entries ->
  table + entries <= Z.of_nat (length ct) ->
  exists ct',
    generate_scale_table table entries ct = Some ct'
    /\ length ct' = length ct
    /\ (forall j, 0 <= j < entries ->
          load ct' (table + j) = Some (Z.quot (j * 255) (entries - 1)))
    /\ (forall k, ~ (table <= k < table + entries) -> load ct' k = load ct k).
Proof.
  intros Ht He Hlen. unfold generate_scale_table.
  destruct (generate_scale_loop_spec (Z.to_nat entries) table entries 0 ct)
    as (ct' & Hrun & Hl & Hin & Hout); [lia|lia|].
  exists ct'. repeat split; try assumption.
  - intros j Hj. apply Hin. lia.
  - intros k Hk. apply Hout. lia.
Qed.

(** ** start *)

Lemma start_loop_reader n i init rd ct rd' ct' :
  start_loop n i init rd ct = Some (rd', ct') ->
  rd' = set_tables (bind_tables n i (rm rd) (rtable rd))
                   (bind_tables n i (gm rd) (gtable rd))
                   (bind_tables n i (bm rd) (btable rd))
                   (bind_tables n i (am rd) (atable rd)) rd.
Proof.
  revert i rd ct. induction n as [|n IH]; intros i rd ct H.
  - simpl in H. injection H as <- _. destruct rd; reflexivity.
  - simpl in H.
    destruct (if negb init then _ else _) as [ct1|]; [|discriminate].
    simpl in H. apply IH in H. rewrite H. reflexivity.
Qed.

(** Once the tables are built, [start] leaves the array alone. *)
Lemma start_loop_built n i rd ct :
  exists rd', start_loop n i true rd ct = Some (rd', ct).
Proof.
  revert i rd. induction n as [|n IH]; intros i rd; simpl.
  - eauto.
  - apply IH.
Qed.

(** The first run of the loop: every table from [i] on is filled with its
    scale, every access stays inside the array, and the entries before
    table [i] and after the last table keep their value. *)
Lemma start_loop_tables n i rd ct :
  0 <= i -> i + Z.of_nat n <= NUM_CONVERT_TABLES ->
  Z.of_nat (length ct) = convert_table_size ->
  exists rd' ct',
    start_loop n i false rd ct = Some (rd', ct')
    /\ length ct' = length ct
    /\ (forall k j, i <= k < i + Z.of_nat n -> 0 <= j < Z.shiftl 1 (k + 1) ->
          load ct' (get_convert_table k + j)
          = Some (Z.quot (j * 255) (Z.shiftl 1 (k + 1) - 1)))
    /\ (forall x, ~ (get_convert_table i <= x < get_convert_table (i + Z.of_nat n)) ->
          load ct' x = load ct x).
Proof.
  revert i rd ct. induction n as [|n IH]; intros i rd ct Hi Hn Hlen.
  - exists rd, ct. simpl. repeat split; intros; try reflexivity; lia.
  - simpl start_loop. cbv zeta.
    assert (Hent : 0 < Z.shiftl 1 (i + 1)).
    { rewrite Z.shiftl_mul_pow2 by lia. apply Z.mul_pos_pos; [lia|].
      apply Z.pow_pos_nonneg; lia. }
    pose proof (get_convert_table_nonneg i Hi) as Hbase.
    pose proof (get_convert_table_next i Hi) as Hnext.
    assert (Htop : get_convert_table (i + 1) <= convert_table_size).
    { pose proof (get_convert_table_mono (i + 1) 8 ltac:(unfold NUM_CONVERT_TABLES in *; lia)) as H8.
      change (get_convert_table 8) with 510 in H8.
      rewrite convert_table_size_eq. lia. }
    destruct (generate_scale_table_spec (get_convert_table i)
                (Z.shiftl 1 (i + 1)) ct)
      as (ct1 & Hgen & Hl1 & Hin1 & Hout1); [lia|lia|lia|].
    simpl negb. cbv iota. rewrite Hgen. simpl.
    match goal with |- context [start_loop n (i + 1) false ?r ct1] =>
      destruct (IH (i + 1) r ct1) as (rd' & ct' & Hrun & Hl & Hin & Hout)
    end; [lia|lia|lia|].
    exists rd', ct'. split; [exact Hrun|]. split; [congruence|].
    replace (i + Z.of_nat (S n)) with (i + 1 + Z.of_nat n) by lia.
    pose proof (get_convert_table_mono (i + 1) (i + 1 + Z.of_nat n) ltac:(lia)).
    split.
    + intros k j Hk Hj. destruct (Z.eq_dec k i) as [->|Hne].
      * rewrite Hout by lia. apply Hin1. exact Hj.
      * apply Hin; [lia|exact Hj].
    + intros x Hx. rewrite Hout by lia. apply Hout1. lia.
Qed.

Lemma start_masks_header rd :
  data_ptr (start_masks rd) = data_ptr rd
  /\ width (start_masks rd) = width rd
  /\ height (start_masks rd) = height rd
  /\ depth (start_masks rd) = depth rd
  /\ compression (start_masks rd) = compression rd
  /\ stride (start_masks rd) = stride rd
  /\ data (start_masks rd) = data rd
  /\ rtable (start_masks rd) = rtable rd
  /\ gtable (start_masks rd) = gtable rd
  /\ btable (start_masks rd) = btable rd
  /\ atable (start_masks rd) = atable rd.
Proof.
  unfold start_masks. case_bool_decide; [repeat split|].
  simpl depth. destruct (depth rd =? 16); [repeat split|].
  destruct ((depth rd =? 24) || (depth rd =? 32)); repeat split.
Qed.

(** [start] as a whole: it returns, with the masks of [start_masks] and the
    table pointers of the eight iterations. *)
Lemma start_returns rd g :
  Z.of_nat (length (convert_table g)) = convert_table_size ->
  exists ct',
    start rd g =
      Some (set_tables
              (bind_tables 8 0 (rm (start_masks rd)) (rtable rd))
              (bind_tables 8 0 (gm (start_masks rd)) (gtable rd))
              (bind_tables 8 0 (bm (start_masks rd)) (btable rd))
              (bind_tables 8 0 (am (start_masks rd)) (atable rd))
              (start_masks rd),
            Globals true ct')
    /\ length ct' = length (convert_table g)
    /\ (convert_table_init g = true -> ct' = convert_table g)
    /\ (convert_table_init g = false ->
        forall k j, 0 <= k < 8 -> 0 <= j < Z.shiftl 1 (k + 1) ->
          load ct' (get_convert_table k + j)
          = Some (Z.quot (j * 255) (Z.shiftl 1 (k + 1) - 1))).
Proof.
  intros Hlen. unfold start.
  destruct (start_masks_header rd) as (_&_&_&_&_&_&_&Hr&Hg&Hb&Ha).
  change (Z.to_nat NUM_CONVERT_TABLES) with 8%nat.
  destruct (convert_table_init g) eqn:Hinit.
  - destruct (start_loop_built 8 0 (start_masks rd) (convert_table g)) as (rd' & Hrun).
    exists (convert_table g). rewrite Hrun. simpl.
    apply start_loop_reader in Hrun. rewrite Hrun, Hr, Hg, Hb, Ha.
    repeat split; intros; try reflexivity; discriminate.
  - destruct (start_loop_tables 8 0 (start_masks rd) (convert_table g))
      as (rd' & ct' & Hrun & Hl & Hin & _); [lia|reflexivity|exact Hlen|].
    exists ct'. rewrite Hrun. simpl.
    apply start_loop_reader in Hrun. rewrite Hrun, Hr, Hg, Hb, Ha.
    repeat split; intros; try reflexivity; try discriminate; try assumption.
    apply Hin; [simpl; lia|assumption].
Qed.

Lemma quot_scale j n : 0 <= j -> 0 < n -> Z.quot (j * 255) n = j * 255 / n.
Proof. intros Hj Hn. apply Z.quot_div_nonneg; lia. Qed.

Lemma scale_table_lookup ct w (i : nat) :
  0 < w -> (Z.of_nat i < Z.shiftl 1 w) ->
  scale_table ct w !! i = load ct (get_convert_table (w - 1) + Z.of_nat i).
Proof.
  intros Hw Hi. unfold scale_table, load.
  pose proof (get_convert_table_nonneg (w - 1) ltac:(lia)) as Hb.
  rewrite lookup_take_lt by lia. rewrite lookup_drop.
  destruct (Z.ltb_spec (get_convert_table (w - 1) + Z.of_nat i) 0); [lia|].
  f_equal. lia.
Qed.

(** C4: the first [start] of a process builds, for every bit width [w] in
    1..8, a scale table of exactly [2^w] entries whose entry [i] is
    [floor (i * 255 / (2^w - 1))]; so entry 0 is 0, entry [2^w - 1] is 255
    and the entries never decrease. *)
Theorem scale_table_entries rd g w :
  convert_table_init g = false ->
  Z.of_nat (length (convert_table g)) = convert_table_size ->
  1 <= w <= 8 ->
  exists rd' g',
    start rd g = Some (rd', g')
    /\ convert_table_init g' = true
    /\ Z.of_nat (length (scale_table (convert_table g') w)) = 2 ^ w
    /\ (forall i, 0 <= i < 2 ^ w ->
          scale_table (convert_table g') w !! Z.to_nat i
          = Some (i * 255 / (2 ^ w - 1)))
    /\ scale_table (convert_table g') w !! Z.to_nat 0 = Some 0
    /\ scale_table (convert_table g') w !! Z.to_nat (2 ^ w - 1) = Some 255
    /\ (forall (i j : nat) x y, (i <= j)%nat ->
          scale_table (convert_table g') w !! i = Some x ->
          scale_table (convert_table g') w !! j = Some y -> x <= y).
Proof.
  intros Hinit Hlen Hw.
  destruct (start_returns rd g Hlen) as (ct' & Hstart & Hl & _ & Htab).
  specialize (Htab Hinit).
  eexists _, _. split; [exact Hstart|]. simpl convert_table.
  split; [reflexivity|].
  assert (Hsh : Z.shiftl 1 w = 2 ^ w) by (rewrite Z.shiftl_mul_pow2; lia).
  assert (Hpow : 2 <= 2 ^ w).
  { change 2 with (2 ^ 1) at 1. apply Z.pow_le_mono_r; lia. }
  assert (Hentry : forall i, 0 <= i < 2 ^ w ->
            scale_table ct' w !! Z.to_nat i = Some (i * 255 / (2 ^ w - 1))).
  { intros i Hi. rewrite scale_table_lookup by lia.
    rewrite Z2Nat.id by lia.
    specialize (Htab (w - 1) i ltac:(lia)).
    replace (w - 1 + 1) with w in Htab by lia. rewrite Hsh in Htab.
    rewrite Htab by lia. f_equal. apply quot_scale; lia. }
  assert (Hlenw : Z.of_nat (length (scale_table ct' w)) = 2 ^ w).
  { unfold scale_table. rewrite length_take, length_drop, Hsh.
    pose proof (get_convert_table_mono (w - 1) 7 ltac:(lia)) as Hm.
    change (get_convert_table 7) with 254 in Hm.
    pose proof (get_convert_table_nonneg (w - 1) ltac:(lia)).
    assert (2 ^ w <= 2 ^ 8) by (apply Z.pow_le_mono_r; lia).
    rewrite convert_table_size_eq in Hlen. change (2 ^ 8) with 256 in *. lia. }
  split; [exact Hlenw|]. split; [exact Hentry|]. split; [|split].
  - rewrite (Hentry 0) by lia. reflexivity.
  - rewrite Hentry by lia. f_equal.
    rewrite (Z.mul_comm (2 ^ w - 1) 255), Z.div_mul by lia. reflexivity.
  - intros i j x y Hij Hx Hy.
    assert (Hj : Z.of_nat j < 2 ^ w).
    { apply lookup_lt_Some in Hy. lia. }
    pose proof (Hentry (Z.of_nat i) ltac:(lia)) as Hi'.
    pose proof (Hentry (Z.of_nat j) ltac:(lia)) as Hj'.
    rewrite Nat2Z.id in Hi', Hj'.
    assert (x = Z.of_nat i * 255 / (2 ^ w - 1)) as -> by congruence.
    assert (y = Z.of_nat j * 255 / (2 ^ w - 1)) as -> by congruence.
    apply Z.div_le_mono; lia.
Qed.

Lemma scale_table_entries_witness :
  exists rd' g',
    start reader_24_padded initial_globals = Some (rd', g')
    /\ scale_table (convert_table g') 5 !! Z.to_nat (2 ^ 5 - 1) = Some 255.
Proof.
  destruct (scale_table_entries reader_24_padded initial_globals 5
              eq_refl eq_refl ltac:(lia))
    as (rd' & g' & H & _ & _ & _ & _ & H255 & _).
  exists rd', g'. split; [exact H|exact H255].
Defined.

(** C9: table [i] (for [i] in 0..7) is the index range that starts at
    [(2 << i) - 2] and has [2^(i+1)] entries; the eight ranges are pairwise
    disjoint and inside the [(2 << 10) - 2] entries of [convert_table];
    building one table writes inside the array and leaves every entry
    outside its own range as it was. *)
Theorem convert_table_ranges :
  convert_table_size = Z.shiftl 2 10 - 2
  /\ (forall i, 0 <= i <= 7 ->
        get_convert_table i = Z.shiftl 2 i - 2
        /\ 0 <= get_convert_table i
        /\ get_convert_table i + 2 ^ (i + 1) < convert_table_size)
  /\ (forall i j, 0 <= i < j -> j <= 7 ->
        get_convert_table i + 2 ^ (i + 1) <= get_convert_table j)
  /\ (forall i ct, 0 <= i <= 7 ->
        Z.of_nat (length ct) = convert_table_size ->
        exists ct',
          generate_scale_table (get_convert_table i) (Z.shiftl 1 (i + 1)) ct
          = Some ct'
          /\ length ct' = length ct
          /\ forall x,
               ~ (get_convert_table i <= x < get_convert_table i + 2 ^ (i + 1)) ->
               load ct' x = load ct x).
Proof.
  assert (Hin : forall i, 0 <= i <= 7 ->
            0 <= get_convert_table i
            /\ get_convert_table i + 2 ^ (i + 1) < convert_table_size).
  { intros i Hi. pose proof (get_convert_table_nonneg i ltac:(lia)).
    pose proof (get_convert_table_mono (i + 1) 8 ltac:(lia)) as Hm.
    pose proof (get_convert_table_next i ltac:(lia)) as Hn.
    rewrite Z.shiftl_mul_pow2 in Hn by lia.
    change (get_convert_table 8) with 510 in Hm.
    rewrite convert_table_size_eq. lia. }
  split; [reflexivity|]. split; [|split].
  - intros i Hi. split; [reflexivity|]. apply Hin, Hi.
  - intros i j Hij Hj.
    pose proof (get_convert_table_next i ltac:(lia)) as Hn.
    rewrite Z.shiftl_mul_pow2 in Hn by lia.
    pose proof (get_convert_table_mono (i + 1) j ltac:(lia)). lia.
  - intros i ct Hi Hlen. destruct (Hin i Hi) as [H0 Hend].
    assert (Hsh : Z.shiftl 1 (i + 1) = 2 ^ (i + 1))
      by (rewrite Z.shiftl_mul_pow2; lia).
    assert (0 < 2 ^ (i + 1)) by (apply Z.pow_pos_nonneg; lia).
    destruct (generate_scale_table_spec (get_convert_table i)
                (Z.shiftl 1 (i + 1)) ct)
      as (ct' & Hgen & Hl & _ & Hout); [lia|lia|lia|].
    exists ct'. split; [exact Hgen|]. split; [exact Hl|].
    intros x Hx. apply Hout. lia.
Qed.

Lemma convert_table_ranges_witness :
  get_convert_table 4 + 2 ^ (4 + 1) <= get_convert_table 5
  /\ get_convert_table 7 + 2 ^ (7 + 1) < convert_table_size
  /\ exists ct',
       generate_scale_table (get_convert_table 2) (Z.shiftl 1 (2 + 1))
         (convert_table initial_globals) = Some ct'
       /\ load ct' 14 = load (convert_table initial_globals) 14.
Proof.
  destruct convert_table_ranges as (_ & Hin & Hdis & Hgen).
  split; [apply Hdis; lia|].
  split; [apply (Hin 7); lia|].
  destruct (Hgen 2 (convert_table initial_globals) ltac:(lia) eq_refl)
    as (ct' & H & _ & Hout).
  exists ct'. split; [exact H|]. apply Hout. vm_compute. intros [_ H']. discriminate H'.
Defined.

(** ** check_format *)

Lemma mask_bits_gt m : 8 < mask_bits m <-> maxmask < m.
Proof.
  unfold mask_bits. change maxmask with 255.
  destruct (Z.leb_spec m 0) as [|Hpos]; [lia|].
  pose proof (Z.log2_le_pow2 m 8 Hpos) as H. change (2 ^ 8) with 256 in H. lia.
Qed.

Lemma check_format_validate rd : check_format rd = validate_spec rd.
Proof.
  assert (E1 : (width rd <? 0) = bool_decide (width rd < 0)).
  { apply eq_true_iff_eq. rewrite bool_decide_eq_true, Z.ltb_lt. tauto. }
  assert (E2 : (width rd >? 0x40000000) || (height rd <? -0x40000000)
               || (height rd >? 0x40000000)
               = bool_decide (2 ^ 30 < width rd \/ 2 ^ 30 < Z.abs (height rd))).
  { apply eq_true_iff_eq.
    rewrite bool_decide_eq_true, !orb_true_iff, !Z.gtb_ltb, !Z.ltb_lt. lia. }
  assert (E3 : negb (depth rd =? 16) && negb (depth rd =? 24)
               && negb (depth rd =? 32)
               = bool_decide (depth rd <> 16 /\ depth rd <> 24 /\ depth rd <> 32)).
  { apply eq_true_iff_eq.
    rewrite bool_decide_eq_true, !andb_true_iff, !negb_true_iff, !Z.eqb_neq.
    tauto. }
  assert (E4 : negb (bool_decide (compression rd = RGB))
               && negb (bool_decide (compression rd = BitFields))
               = bool_decide (compression rd <> RGB /\ compression rd <> BitFields)).
  { apply eq_true_iff_eq.
    rewrite bool_decide_eq_true, !andb_true_iff, !negb_true_iff,
      !bool_decide_eq_false. tauto. }
  assert (E5 : (rm rd >? maxmask) || (gm rd >? maxmask) || (bm rd >? maxmask)
               || (am rd >? maxmask)
               = bool_decide (8 < mask_bits (rm rd) \/ 8 < mask_bits (gm rd)
                              \/ 8 < mask_bits (bm rd) \/ 8 < mask_bits (am rd))).
  { apply eq_true_iff_eq.
    rewrite bool_decide_eq_true, !orb_true_iff, !Z.gtb_ltb, !Z.ltb_lt,
      !mask_bits_gt. tauto. }
  unfold check_format, validate_spec. rewrite E1, E2, E3, E4, E5. reflexivity.
Qed.

(** The checks one after the other: each reason is returned exactly when
    its check is the first to fail. *)
Lemma check_format_cases rd :
  (width rd < 0 /\ check_format rd = reasons !! 0%nat)
  \/ (0 <= width rd /\ ~ dims_ok rd /\ check_format rd = reasons !! 1%nat)
  \/ (dims_ok rd /\ ~ depth_ok rd /\ check_format rd = reasons !! 2%nat)
  \/ (dims_ok rd /\ depth_ok rd /\ ~ compression_ok rd
      /\ check_format rd = reasons !! 3%nat)
  \/ (dims_ok rd /\ depth_ok rd /\ compression_ok rd /\ ~ masks_ok rd
      /\ check_format rd = reasons !! 4%nat)
  \/ (dims_ok rd /\ depth_ok rd /\ compression_ok rd /\ masks_ok rd
      /\ check_format rd = None).
Proof.
  rewrite check_format_validate.
  unfold validate_spec, dims_ok, depth_ok, compression_ok, masks_ok.
  destruct (decide (width rd < 0)) as [H1|H1].
  { rewrite (bool_decide_eq_true_2 _ H1). left. auto. }
  rewrite (bool_decide_eq_false_2 _ H1). right.
  destruct (decide (2 ^ 30 < width rd \/ 2 ^ 30 < Z.abs (height rd))) as [H2|H2].
  { rewrite (bool_decide_eq_true_2 _ H2). left.
    split; [lia|]. split; [lia|reflexivity]. }
  rewrite (bool_decide_eq_false_2 _ H2). right.
  destruct (decide (depth rd <> 16 /\ depth rd <> 24 /\ depth rd <> 32))
    as [H3|H3].
  { rewrite (bool_decide_eq_true_2 _ H3). left.
    split; [lia|]. split; [lia|reflexivity]. }
  rewrite (bool_decide_eq_false_2 _ H3). right.
  destruct (decide (compression rd <> RGB /\ compression rd <> BitFields))
    as [H4|H4].
  { rewrite (bool_decide_eq_true_2 _ H4). left.
    split; [lia|]. split; [lia|]. split; [tauto|reflexivity]. }
  rewrite (bool_decide_eq_false_2 _ H4). right.
  assert (compression rd = RGB \/ compression rd = BitFields).
  { destruct (compression rd); auto; exfalso; apply H4; split; discriminate. }
  destruct (decide (8 < mask_bits (rm rd) \/ 8 < mask_bits (gm rd)
                    \/ 8 < mask_bits (bm rd) \/ 8 < mask_bits (am rd)))
    as [H5|H5].
  { rewrite (bool_decide_eq_true_2 _ H5). left.
    split; [lia|]. split; [lia|]. split; [assumption|].
    split; [lia|reflexivity]. }
  rewrite (bool_decide_eq_false_2 _ H5). right.
  split; [lia|]. split; [lia|]. split; [assumption|]. split; [lia|reflexivity].
Qed.

Lemma start_masks_bitfields_red rd :
  compression rd = BitFields ->
  rs (start_masks rd) = fst (decode_bitfield (red_mask rd))
  /\ rm (start_masks rd) = snd (decode_bitfield (red_mask rd)).
Proof.
  intros Hc. unfold start_masks. rewrite (bool_decide_eq_true_2 _ Hc).
  split; reflexivity.
Qed.

(** C3, amended: [check_format] runs its five checks in a fixed order and
    returns the reason of the first that fails (negative width; width or
    |height| above 2^30; depth not 16, 24 or 32; compression neither RGB nor
    BitFields; a decoded mask wider than 8 bits).  The five checks have five
    pairwise distinct reason strings; width -1, width 2^31-1, |height| >
    2^30, depth 8, an unsupported compression and a 9-bit contiguous mask
    are each rejected with the reason of the first check they fail (the
    second and the third with the same one), and a format that passes the
    five checks is accepted. *)
Theorem check_format_first_failure :
  (forall rd, check_format rd = validate_spec rd)
  /\ NoDup reasons
  /\ (forall rd, width rd < 0 -> check_format rd = reasons !! 0%nat)
  /\ (forall rd, 0 <= width rd -> ~ dims_ok rd ->
        check_format rd = reasons !! 1%nat)
  /\ (forall rd, dims_ok rd -> ~ depth_ok rd ->
        check_format rd = reasons !! 2%nat)
  /\ (forall rd, dims_ok rd -> depth_ok rd -> ~ compression_ok rd ->
        check_format rd = reasons !! 3%nat)
  /\ (forall rd, dims_ok rd -> depth_ok rd -> compression_ok rd ->
        ~ masks_ok rd -> check_format rd = reasons !! 4%nat)
  /\ (forall rd, dims_ok rd -> depth_ok rd -> compression_ok rd ->
        masks_ok rd -> check_format rd = None)
  /\ (forall rd, width rd = -1 ->
        check_format rd = Some "Image width less than zero"%string)
  /\ (forall rd, width rd = 2 ^ 31 - 1 ->
        check_format rd = Some "Image dimensions out of bounds"%string)
  /\ (forall rd, 0 <= width rd -> 2 ^ 30 < Z.abs (height rd) ->
        check_format rd = Some "Image dimensions out of bounds"%string)
  /\ (forall rd, dims_ok rd -> depth rd = 8 ->
        check_format rd = Some "Unsupported bit depth"%string)
  /\ (forall rd, dims_ok rd -> depth_ok rd -> compression rd = RLE8 ->
        check_format rd = Some "Unsupported compression"%string)
  /\ (forall rd g k,
        Z.of_nat (length (convert_table g)) = convert_table_size ->
        dims_ok rd -> depth_ok rd -> compression rd = BitFields ->
        0 <= k -> red_mask rd = Z.shiftl 0x1FF k ->
        exists rd' g',
          start rd g = Some (rd', g')
          /\ rm rd' = 0x1FF
          /\ check_format rd' = Some "Bit mask too long"%string).
Proof.
  split; [exact check_format_validate|].
  split. { apply (bool_decide_unpack _). vm_compute. exact I. }
  assert (G0 : forall rd, width rd < 0 -> check_format rd = reasons !! 0%nat).
  { intros rd H. destruct (check_format_cases rd) as [C|[C|[C|[C|[C|C]]]]];
      unfold dims_ok in *; try tauto; exfalso; lia. }
  assert (G1 : forall rd, 0 <= width rd -> ~ dims_ok rd ->
            check_format rd = reasons !! 1%nat).
  { intros rd H H'. destruct (check_format_cases rd) as [C|[C|[C|[C|[C|C]]]]];
      try tauto; exfalso; lia. }
  assert (G2 : forall rd, dims_ok rd -> ~ depth_ok rd ->
            check_format rd = reasons !! 2%nat).
  { intros rd H H'. destruct (check_format_cases rd) as [C|[C|[C|[C|[C|C]]]]];
      try tauto; exfalso; unfold dims_ok in *; lia. }
  assert (G3 : forall rd, dims_ok rd -> depth_ok rd -> ~ compression_ok rd ->
            check_format rd = reasons !! 3%nat).
  { intros rd H H' H''. destruct (check_format_cases rd) as [C|[C|[C|[C|[C|C]]]]];
      try tauto; exfalso; unfold dims_ok in *; lia. }
  assert (G4 : forall rd, dims_ok rd -> depth_ok rd -> compression_ok rd ->
            ~ masks_ok rd -> check_format rd = reasons !! 4%nat).
  { intros rd H H' H'' H3. destruct (check_format_cases rd) as [C|[C|[C|[C|[C|C]]]]];
      try tauto; exfalso; unfold dims_ok in *; lia. }
  assert (G5 : forall rd, dims_ok rd -> depth_ok rd -> compression_ok rd ->
            masks_ok rd -> check_format rd = None).
  { intros rd H H' H'' H3. destruct (check_format_cases rd) as [C|[C|[C|[C|[C|C]]]]];
      try tauto; exfalso; unfold dims_ok in *; lia. }
  repeat (split; [assumption|]).
  split. { intros rd H. apply G0. lia. }
  split. { intros rd H. apply G1; [lia|]. unfold dims_ok. lia. }
  split. { intros rd H H'. apply G1; [lia|]. unfold dims_ok. lia. }
  split. { intros rd H H'. apply G2; [assumption|]. unfold depth_ok. lia. }
  split. { intros rd H H' H''. apply G3; try assumption.
           unfold compression_ok. rewrite H''. intros [?|?]; discriminate. }
  intros rd g k Hlen Hd Hdep Hc Hk Hred.
  destruct (start_returns rd g Hlen) as (ct' & Hstart & _).
  eexists _, _. split; [exact Hstart|].
  destruct (start_masks_bitfields_red rd Hc) as [_ Hrm].
  rewrite Hred, decode_bitfield_shiftl in Hrm by (try reflexivity; lia).
  simpl snd in Hrm.
  destruct (start_masks_header rd) as (_&Hw&Hh&Hde&Hco&_).
  split; [exact Hrm|].
  apply (G4 _).
  - unfold dims_ok in *. simpl. rewrite Hw, Hh. exact Hd.
  - unfold depth_ok in *. simpl. rewrite Hde. exact Hdep.
  - unfold compression_ok. simpl. rewrite Hco. auto.
  - unfold masks_ok. simpl. rewrite Hrm. intros [H _]. vm_compute in H.
    apply H. reflexivity.
Qed.

Lemma check_format_first_failure_witness :
  check_format (new_reader [] (-1) 1 24 RGB 0 0 0 0 0 0)
    = Some "Image width less than zero"%string
  /\ check_format (new_reader [] 1 1 8 RGB 0 0 0 0 0 0)
    = Some "Unsupported bit depth"%string
  /\ check_format (new_reader [] 1 1 24 RGB 0 0 0 0 4 0) = None
  /\ exists rd' g',
       start (new_reader [] 1 1 32 BitFields (Z.shiftl 0x1FF 3) 0 0 0 4 0)
         initial_globals = Some (rd', g')
       /\ rm rd' = 0x1FF
       /\ check_format rd' = Some "Bit mask too long"%string.
Proof.
  destruct check_format_first_failure
    as (_ & _ & _ & _ & _ & _ & _ & Hok & Hneg & _ & _ & Hd8 & _ & H9).
  split; [apply Hneg; reflexivity|].
  split; [apply Hd8; [unfold dims_ok; simpl; lia|reflexivity]|].
  split.
  { apply Hok.
    - unfold dims_ok; simpl; lia.
    - right; left; reflexivity.
    - left; reflexivity.
    - unfold masks_ok; simpl; unfold mask_bits; simpl; lia. }
  apply (H9 _ initial_globals 3).
  - reflexivity.
  - unfold dims_ok; simpl; lia.
  - right; right; reflexivity.
  - reflexivity.
  - lia.
  - reflexivity.
Defined.

(** The claim C3 as it is worded gives each of its six rejected inputs a
    reason string of its own.  Width 2^31-1 and a height above 2^30 fail the
    same check, the single test on the dimensions, and get the same
    string. *)
Lemma dimension_reason_shared :
  check_format (new_reader [] (2 ^ 31 - 1) 1 24 RGB 0 0 0 0 0 0)
    = Some "Image dimensions out of bounds"%string
  /\ check_format (new_reader [] 1 (2 ^ 30 + 1) 24 RGB 0 0 0 0 4 0)
    = Some "Image dimensions out of bounds"%string
  /\ ~ NoDup [ check_format (new_reader [] (-1) 1 24 RGB 0 0 0 0 0 0);
               check_format (new_reader [] (2 ^ 31 - 1) 1 24 RGB 0 0 0 0 0 0);
               check_format (new_reader [] 1 (2 ^ 30 + 1) 24 RGB 0 0 0 0 4 0);
               check_format (new_reader [] 1 1 8 RGB 0 0 0 0 4 0);
               check_format (new_reader [] 1 1 24 RLE8 0 0 0 0 4 0);
               check_format
                 (set_r (decode_bitfield 0x1FF)
                    (new_reader [] 1 1 32 BitFields 0x1FF 0 0 0 4 0)) ].
Proof.
  split; [reflexivity|]. split; [reflexivity|].
  intros H. apply (bool_decide_pack _) in H. vm_compute in H. exact H.
Qed.

(** ** The row readers *)

Lemma read_line_argb_loop_step rd ct f n lb :
  read_line_argb_loop rd ct f (S n) lb =
    pixel ← fetch_pixel rd f lb;
    r ← channel_byte ct (rtable rd) (rs rd) (rm rd) pixel;
    g ← channel_byte ct (gtable rd) (gs rd) (gm rd) pixel;
    b ← channel_byte ct (btable rd) (bs rd) (bm rd) pixel;
    rest ← read_line_argb_loop rd ct f n (lb + bpp rd);
    Some (b :: g :: r :: synth_alpha r g b :: rest).
Proof. reflexivity. Qed.

Lemma read_line_abgr_loop_step rd ct f n lb :
  read_line_abgr_loop rd ct f (S n) lb =
    pixel ← fetch_pixel rd f lb;
    r ← channel_byte ct (rtable rd) (rs rd) (rm rd) pixel;
    g ← channel_byte ct (gtable rd) (gs rd) (gm rd) pixel;
    b ← channel_byte ct (btable rd) (bs rd) (bm rd) pixel;
    rest ← read_line_abgr_loop rd ct f n (lb + bpp rd);
    Some (r :: g :: b :: synth_alpha r g b :: rest).
Proof. reflexivity. Qed.

Lemma synth_alpha_spec r g b : synth_alpha r g b = alpha_of r g b.
Proof.
  unfold synth_alpha, alpha_of.
  destruct (Z.eqb_spec (Z.lor (Z.lor r g) b) 0) as [E|E].
  - rewrite !Z.lor_eq_0_iff in E. rewrite bool_decide_eq_true_2 by tauto.
    reflexivity.
  - rewrite !Z.lor_eq_0_iff in E. rewrite bool_decide_eq_false_2 by tauto.
    reflexivity.
Qed.

Lemma alpha_of_perm c0 c1 c2 : alpha_of c0 c1 c2 = alpha_of c2 c1 c0.
Proof.
  unfold alpha_of. repeat case_bool_decide; try reflexivity; exfalso; tauto.
Qed.

Lemma alpha_rule_cons c0 c1 c2 rest n :
  alpha_rule rest n ->
  alpha_rule (c0 :: c1 :: c2 :: alpha_of c0 c1 c2 :: rest) (S n).
Proof.
  intros H [|i] Hi.
  - exists c0, c1, c2. repeat split.
  - destruct (H i ltac:(lia)) as (d0 & d1 & d2 & H0 & H1 & H2 & H3).
    exists d0, d1, d2.
    replace (4 * S i)%nat with (S (S (S (S (4 * i))))) by lia.
    repeat split; assumption.
Qed.

Lemma read_line_argb_loop_alpha rd ct f n lb out :
  read_line_argb_loop rd ct f n lb = Some out ->
  length out = (4 * n)%nat /\ alpha_rule out n.
Proof.
  revert lb out. induction n as [|n IH]; intros lb out H.
  - injection H as <-. split; [reflexivity|]. intros i Hi. lia.
  - rewrite read_line_argb_loop_step in H.
    destruct (fetch_pixel rd f lb) as [pixel|]; [|discriminate]. simpl in H.
    destruct (channel_byte ct (rtable rd) _ _ pixel) as [r|]; [|discriminate].
    simpl in H.
    destruct (channel_byte ct (gtable rd) _ _ pixel) as [g|]; [|discriminate].
    simpl in H.
    destruct (channel_byte ct (btable rd) _ _ pixel) as [b|]; [|discriminate].
    simpl in H.
    destruct (read_line_argb_loop rd ct f n (lb + bpp rd)) as [rest|] eqn:Hrest;
      [|discriminate].
    simpl in H. injection H as <-.
    destruct (IH _ _ Hrest) as [Hlen Hrule]. split.
    + simpl. rewrite Hlen. lia.
    + rewrite synth_alpha_spec, alpha_of_perm. apply alpha_rule_cons, Hrule.
Qed.

Lemma read_line_abgr_loop_alpha rd ct f n lb out :
  read_line_abgr_loop rd ct f n lb = Some out ->
  length out = (4 * n)%nat /\ alpha_rule out n.
Proof.
  revert lb out. induction n as [|n IH]; intros lb out H.
  - injection H as <-. split; [reflexivity|]. intros i Hi. lia.
  - rewrite read_line_abgr_loop_step in H.
    destruct (fetch_pixel rd f lb) as [pixel|]; [|discriminate]. simpl in H.
    destruct (channel_byte ct (rtable rd) _ _ pixel) as [r|]; [|discriminate].
    simpl in H.
    destruct (channel_byte ct (gtable rd) _ _ pixel) as [g|]; [|discriminate].
    simpl in H.
    destruct (channel_byte ct (btable rd) _ _ pixel) as [b|]; [|discriminate].
    simpl in H.
    destruct (read_line_abgr_loop rd ct f n (lb + bpp rd)) as [rest|] eqn:Hrest;
      [|discriminate].
    simpl in H. injection H as <-.
    destruct (IH _ _ Hrest) as [Hlen Hrule]. split.
    + simpl. rewrite Hlen. lia.
    + rewrite synth_alpha_spec. apply alpha_rule_cons, Hrule.
Qed.

(** The alpha members of the reader play no part in a row. *)
Lemma read_line_argb_loop_alpha_members rd sm t ct f n lb :
  read_line_argb_loop
    (set_tables (rtable rd) (gtable rd) (btable rd) t (set_a sm rd)) ct f n lb
  = read_line_argb_loop rd ct f n lb.
Proof.
  revert lb. induction n as [|n IH]; intros lb; [reflexivity|].
  rewrite !read_line_argb_loop_step. rewrite IH. reflexivity.
Qed.

Lemma read_line_abgr_loop_alpha_members rd sm t ct f n lb :
  read_line_abgr_loop
    (set_tables (rtable rd) (gtable rd) (btable rd) t (set_a sm rd)) ct f n lb
  = read_line_abgr_loop rd ct f n lb.
Proof.
  revert lb. induction n as [|n IH]; intros lb; [reflexivity|].
  rewrite !read_line_abgr_loop_step. rewrite IH. reflexivity.
Qed.

(** ** int values and the source line *)

Lemma int_value_Some z : int_range z -> int_value z = Some z.
Proof.
  intros [H1 H2]. unfold int_value.
  destruct (Z.leb_spec INT_MIN z); [|lia].
  destruct (Z.leb_spec z INT_MAX); [reflexivity|lia].
Qed.

Lemma int_value_inv z v : int_value z = Some v -> v = z /\ int_range z.
Proof.
  unfold int_value, int_range.
  destruct (Z.leb_spec INT_MIN z); simpl; [|discriminate].
  destruct (Z.leb_spec z INT_MAX); [|discriminate].
  intros [= <-]. auto.
Qed.

Lemma int_value_None z : ~ int_range z -> int_value z = None.
Proof.
  intros H. destruct (int_value z) as [v|] eqn:E; [|reflexivity].
  apply int_value_inv in E. tauto.
Qed.

Lemma source_line_inv rd row line :
  source_line rd row = Some line ->
  int_range row /\ int_range (height rd) /\ int_range line
  /\ line = (if height rd <? 0 then row else height rd - 1 - row).
Proof.
  unfold source_line.
  destruct (int_value row) as [r|] eqn:Er; [|discriminate].
  apply int_value_inv in Er as [-> Hr]. simpl.
  destruct (int_value (height rd)) as [h|] eqn:Eh; [|discriminate].
  apply int_value_inv in Eh as [-> Hh]. simpl.
  destruct (height rd <? 0).
  - intros [= <-]. auto.
  - destruct (int_value (height rd - 1)) as [h1|] eqn:E1; [|discriminate].
    apply int_value_inv in E1 as [-> _]. simpl. intros E.
    apply int_value_inv in E as [-> Hl]. auto.
Qed.

Lemma source_line_top_down rd row :
  int_range row -> int_range (height rd) -> height rd < 0 ->
  source_line rd row = Some row.
Proof.
  intros Hr Hh Hneg. unfold source_line.
  rewrite (int_value_Some _ Hr), (int_value_Some _ Hh). simpl.
  destruct (Z.ltb_spec (height rd) 0); [reflexivity|lia].
Qed.

Lemma source_line_bottom_up rd row :
  int_range row -> int_range (height rd) -> 0 <= height rd ->
  int_range (height rd - 1 - row) ->
  source_line rd row = Some (height rd - 1 - row).
Proof.
  intros Hr Hh Hpos Hl. unfold source_line.
  rewrite (int_value_Some _ Hr), (int_value_Some _ Hh). simpl.
  destruct (Z.ltb_spec (height rd) 0); [lia|].
  rewrite (int_value_Some (height rd - 1))
    by (unfold int_range, INT_MIN, INT_MAX in *; lia).
  simpl. apply int_value_Some, Hl.
Qed.

Lemma source_line_overflow rd row :
  0 <= height rd -> ~ int_range (height rd - 1 - row) ->
  source_line rd row = None.
Proof.
  intros Hpos Hl. destruct (source_line rd row) as [line|] eqn:E; [|reflexivity].
  apply source_line_inv in E as (_ & _ & Hline & ->).
  destruct (Z.ltb_spec (height rd) 0); [lia|]. tauto.
Qed.

Lemma line_offset_inv rd line lb :
  line_offset rd line = Some lb ->
  lb = data rd + stride rd * line /\ int_range (stride rd * line).
Proof.
  unfold line_offset.
  destruct (int_value (stride rd)) as [s|] eqn:Es; [|discriminate].
  apply int_value_inv in Es as [-> _]. cbn [mbind option_bind].
  destruct (int_value (stride rd * line)) as [o|] eqn:E; [|discriminate].
  apply int_value_inv in E as [-> H]. intros [= <-]. auto.
Qed.

Lemma line_offset_Some rd line :
  int_range (stride rd) -> int_range (stride rd * line) ->
  line_offset rd line = Some (data rd + stride rd * line).
Proof.
  intros Hs H. unfold line_offset.
  rewrite (int_value_Some _ Hs). cbn [mbind option_bind].
  rewrite (int_value_Some _ H). reflexivity.
Qed.

(** A returned row comes from a line, an offset and a reader. *)
Lemma read_line_argb_inv rd ct row out :
  read_line_argb rd ct row = Some out ->
  exists line lb f,
    source_line rd row = Some line /\ line_offset rd line = Some lb
    /\ read_fn_for_bpp (bpp rd) = Some f
    /\ read_line_argb_loop rd ct f (Z.to_nat (width rd)) lb = Some out.
Proof.
  unfold read_line_argb.
  destruct (source_line rd row) as [line|] eqn:E1; [|discriminate]. simpl.
  destruct (line_offset rd line) as [lb|] eqn:E2; [|discriminate]. simpl.
  destruct (read_fn_for_bpp (bpp rd)) as [f|] eqn:E3; [|discriminate].
  intros H. exists line, lb, f. repeat split; assumption.
Qed.

Lemma read_line_abgr_inv rd ct row out :
  read_line_abgr rd ct row = Some out ->
  exists line lb f,
    source_line rd row = Some line /\ line_offset rd line = Some lb
    /\ read_fn_for_bpp (bpp rd) = Some f
    /\ read_line_abgr_loop rd ct f (Z.to_nat (width rd)) lb = Some out.
Proof.
  unfold read_line_abgr.
  destruct (source_line rd row) as [line|] eqn:E1; [|discriminate]. simpl.
  destruct (line_offset rd line) as [lb|] eqn:E2; [|discriminate]. simpl.
  destruct (read_fn_for_bpp (bpp rd)) as [f|] eqn:E3; [|discriminate].
  intros H. exists line, lb, f. repeat split; assumption.
Qed.

Lemma read_line_argb_of rd ct row line lb f :
  source_line rd row = Some line -> line_offset rd line = Some lb ->
  read_fn_for_bpp (bpp rd) = Some f ->
  read_line_argb rd ct row
  = read_line_argb_loop rd ct f (Z.to_nat (width rd)) lb.
Proof.
  intros H1 H2 H3. unfold read_line_argb.
  rewrite H1. cbn [mbind option_bind]. rewrite H2. cbn [mbind option_bind].
  rewrite H3. reflexivity.
Qed.

Lemma read_line_abgr_of rd ct row line lb f :
  source_line rd row = Some line -> line_offset rd line = Some lb ->
  read_fn_for_bpp (bpp rd) = Some f ->
  read_line_abgr rd ct row
  = read_line_abgr_loop rd ct f (Z.to_nat (width rd)) lb.
Proof.
  intros H1 H2 H3. unfold read_line_abgr.
  rewrite H1. cbn [mbind option_bind]. rewrite H2. cbn [mbind option_bind].
  rewrite H3. reflexivity.
Qed.

(** ** The pixels of a row *)

Lemma argb_pixel_of_cons rd ct c0 c1 c2 c3 rest i p :
  argb_pixel_of rd ct rest i p ->
  argb_pixel_of rd ct (c0 :: c1 :: c2 :: c3 :: rest) (S i) p.
Proof.
  intros (r & g & b & Hr & Hg & Hb & H0 & H1 & H2 & H3).
  exists r, g, b.
  replace (4 * S i)%nat with (S (S (S (S (4 * i))))) by lia.
  repeat split; assumption.
Qed.

Lemma abgr_pixel_of_cons rd ct c0 c1 c2 c3 rest i p :
  abgr_pixel_of rd ct rest i p ->
  abgr_pixel_of rd ct (c0 :: c1 :: c2 :: c3 :: rest) (S i) p.
Proof.
  intros (r & g & b & Hr & Hg & Hb & H0 & H1 & H2 & H3).
  exists r, g, b.
  replace (4 * S i)%nat with (S (S (S (S (4 * i))))) by lia.
  repeat split; assumption.
Qed.

(** Every pixel of a row that the loop returns is the decoding of the word
    fetched at its offset. *)
Lemma read_line_argb_loop_pixels rd ct f n lb out :
  read_line_argb_loop rd ct f n lb = Some out ->
  forall i : nat, (i < n)%nat ->
    exists p, fetch_pixel rd f (lb + Z.of_nat i * bpp rd) = Some p
              /\ argb_pixel_of rd ct out i p.
Proof.
  revert lb out. induction n as [|n IH]; intros lb out H i Hi; [lia|].
  rewrite read_line_argb_loop_step in H.
  destruct (fetch_pixel rd f lb) as [pixel|] eqn:Hp; [|discriminate].
  simpl in H.
  destruct (channel_byte ct (rtable rd) _ _ pixel) as [r|] eqn:Hr; [|discriminate].
  simpl in H.
  destruct (channel_byte ct (gtable rd) _ _ pixel) as [g|] eqn:Hg; [|discriminate].
  simpl in H.
  destruct (channel_byte ct (btable rd) _ _ pixel) as [b|] eqn:Hb; [|discriminate].
  simpl in H.
  destruct (read_line_argb_loop rd ct f n (lb + bpp rd)) as [rest|] eqn:Hrest;
    [|discriminate].
  simpl in H. injection H as <-.
  destruct i as [|i].
  - exists pixel. rewrite Z.mul_0_l, Z.add_0_r. split; [exact Hp|].
    exists r, g, b. rewrite synth_alpha_spec. repeat split; assumption.
  - destruct (IH _ _ Hrest i ltac:(lia)) as (p & Hf & Hpix).
    exists p. split.
    + rewrite <- Hf. f_equal. lia.
    + apply argb_pixel_of_cons, Hpix.
Qed.

Lemma read_line_abgr_loop_pixels rd ct f n lb out :
  read_line_abgr_loop rd ct f n lb = Some out ->
  forall i : nat, (i < n)%nat ->
    exists p, fetch_pixel rd f (lb + Z.of_nat i * bpp rd) = Some p
              /\ abgr_pixel_of rd ct out i p.
Proof.
  revert lb out. induction n as [|n IH]; intros lb out H i Hi; [lia|].
  rewrite read_line_abgr_loop_step in H.
  destruct (fetch_pixel rd f lb) as [pixel|] eqn:Hp; [|discriminate].
  simpl in H.
  destruct (channel_byte ct (rtable rd) _ _ pixel) as [r|] eqn:Hr; [|discriminate].
  simpl in H.
  destruct (channel_byte ct (gtable rd) _ _ pixel) as [g|] eqn:Hg; [|discriminate].
  simpl in H.
  destruct (channel_byte ct (btable rd) _ _ pixel) as [b|] eqn:Hb; [|discriminate].
  simpl in H.
  destruct (read_line_abgr_loop rd ct f n (lb + bpp rd)) as [rest|] eqn:Hrest;
    [|discriminate].
  simpl in H. injection H as <-.
  destruct i as [|i].
  - exists pixel. rewrite Z.mul_0_l, Z.add_0_r. split; [exact Hp|].
    exists r, g, b. rewrite synth_alpha_spec. repeat split; assumption.
  - destruct (IH _ _ Hrest i ltac:(lia)) as (p & Hf & Hpix).
    exists p. split.
    + rewrite <- Hf. f_equal. lia.
    + apply abgr_pixel_of_cons, Hpix.
Qed.

(** A bit outside the mask of a channel does not reach its byte. *)
Lemma channel_byte_other_bits ct table shift mask p a :
  0 <= shift -> Z.land a (Z.shiftl mask shift) = 0 ->
  channel_byte ct table shift mask (Z.lxor p a)
  = channel_byte ct table shift mask p.
Proof.
  intros Hs Ha. unfold channel_byte. f_equal. f_equal.
  apply Z.bits_inj'. intros n Hn.
  rewrite !Z.land_spec, !Z.shiftr_spec, Z.lxor_spec by lia.
  destruct (Z.testbit mask n) eqn:Hm; [|rewrite !andb_false_r; reflexivity].
  assert (Hbit : Z.testbit a (n + shift) = false).
  { pose proof (f_equal (fun z => Z.testbit z (n + shift)) Ha) as Hb.
    simpl in Hb. rewrite Z.land_spec, Z.shiftl_spec, Z.bits_0 in Hb by lia.
    replace (n + shift - shift) with n in Hb by lia.
    rewrite Hm, andb_true_r in Hb. exact Hb. }
  rewrite Hbit, xorb_false_r. reflexivity.
Qed.

Lemma colour_bits_split rd a :
  Z.land a (colour_bits rd) = 0 ->
  Z.land a (Z.shiftl (rm rd) (rs rd)) = 0
  /\ Z.land a (Z.shiftl (gm rd) (gs rd)) = 0
  /\ Z.land a (Z.shiftl (bm rd) (bs rd)) = 0.
Proof.
  unfold colour_bits. rewrite !Z.land_lor_distr_r, !Z.lor_eq_0_iff. tauto.
Qed.

(** C2, amended: in both channel orders every pixel of a decoded row is the
    decoding of the pixel word fetched at its offset: its three colour bytes
    are the scaled table entries of the word's three colour fields, and its
    alpha byte is 0xFF if one of them is non-zero and 0x00 otherwise.  The
    alpha shift, mask and table of the reader are never consulted, and the
    bits of the pixel word that no colour mask covers (the alpha bits among
    them) have no influence on the four bytes; an alpha bit that a colour
    mask covers as well reaches the alpha byte through that colour. *)
Theorem alpha_from_colour_bytes :
  (forall rd ct row out,
      read_line_argb rd ct row = Some out ->
      length out = (4 * Z.to_nat (width rd))%nat
      /\ exists line lb f,
           source_line rd row = Some line /\ line_offset rd line = Some lb
           /\ read_fn_for_bpp (bpp rd) = Some f
           /\ forall i : nat, (i < Z.to_nat (width rd))%nat ->
                exists p,
                  fetch_pixel rd f (lb + Z.of_nat i * bpp rd) = Some p
                  /\ argb_pixel_of rd ct out i p)
  /\ (forall rd ct row out,
      read_line_abgr rd ct row = Some out ->
      length out = (4 * Z.to_nat (width rd))%nat
      /\ exists line lb f,
           source_line rd row = Some line /\ line_offset rd line = Some lb
           /\ read_fn_for_bpp (bpp rd) = Some f
           /\ forall i : nat, (i < Z.to_nat (width rd))%nat ->
                exists p,
                  fetch_pixel rd f (lb + Z.of_nat i * bpp rd) = Some p
                  /\ abgr_pixel_of rd ct out i p)
  /\ (forall rd ct p a,
      0 <= rs rd -> 0 <= gs rd -> 0 <= bs rd ->
      Z.land a (colour_bits rd) = 0 ->
      channel_byte ct (rtable rd) (rs rd) (rm rd) (Z.lxor p a)
      = channel_byte ct (rtable rd) (rs rd) (rm rd) p
      /\ channel_byte ct (gtable rd) (gs rd) (gm rd) (Z.lxor p a)
         = channel_byte ct (gtable rd) (gs rd) (gm rd) p
      /\ channel_byte ct (btable rd) (bs rd) (bm rd) (Z.lxor p a)
         = channel_byte ct (btable rd) (bs rd) (bm rd) p)
  /\ (forall rd ct row sm t,
      read_line_argb
        (set_tables (rtable rd) (gtable rd) (btable rd) t (set_a sm rd)) ct row
      = read_line_argb rd ct row)
  /\ (forall rd ct row sm t,
      read_line_abgr
        (set_tables (rtable rd) (gtable rd) (btable rd) t (set_a sm rd)) ct row
      = read_line_abgr rd ct row).
Proof.
  split; [|split; [|split; [|split]]].
  - intros rd ct row out H.
    destruct (read_line_argb_inv _ _ _ _ H) as (line & lb & f & H1 & H2 & H3 & Hl).
    split; [exact (proj1 (read_line_argb_loop_alpha _ _ _ _ _ _ Hl))|].
    exists line, lb, f. repeat split; try assumption.
    exact (read_line_argb_loop_pixels _ _ _ _ _ _ Hl).
  - intros rd ct row out H.
    destruct (read_line_abgr_inv _ _ _ _ H) as (line & lb & f & H1 & H2 & H3 & Hl).
    split; [exact (proj1 (read_line_abgr_loop_alpha _ _ _ _ _ _ Hl))|].
    exists line, lb, f. repeat split; try assumption.
    exact (read_line_abgr_loop_pixels _ _ _ _ _ _ Hl).
  - intros rd ct p a Hr Hg Hb Ha.
    destruct (colour_bits_split rd a Ha) as (Ar & Ag & Ab).
    repeat split; apply channel_byte_other_bits; assumption.
  - intros rd ct row sm t. unfold read_line_argb.
    change (source_line (set_tables _ _ _ _ (set_a sm rd)) row)
      with (source_line rd row).
    destruct (source_line rd row) as [line|]; [|reflexivity].
    cbn [mbind option_bind].
    change (line_offset (set_tables _ _ _ _ (set_a sm rd)) line)
      with (line_offset rd line).
    destruct (line_offset rd line) as [lb|]; [|reflexivity].
    cbn [mbind option_bind].
    change (bpp (set_tables _ _ _ _ (set_a sm rd))) with (bpp rd).
    destruct (read_fn_for_bpp (bpp rd)) as [f|]; [|reflexivity].
    apply read_line_argb_loop_alpha_members.
  - intros rd ct row sm t. unfold read_line_abgr.
    change (source_line (set_tables _ _ _ _ (set_a sm rd)) row)
      with (source_line rd row).
    destruct (source_line rd row) as [line|]; [|reflexivity].
    cbn [mbind option_bind].
    change (line_offset (set_tables _ _ _ _ (set_a sm rd)) line)
      with (line_offset rd line).
    destruct (line_offset rd line) as [lb|]; [|reflexivity].
    cbn [mbind option_bind].
    change (bpp (set_tables _ _ _ _ (set_a sm rd))) with (bpp rd).
    destruct (read_fn_for_bpp (bpp rd)) as [f|]; [|reflexivity].
    apply read_line_abgr_loop_alpha_members.
Qed.

Lemma alpha_from_colour_bytes_witness :
  exists rd' g',
    started reader_1555 = Some (rd', g')
    /\ Z.shiftl (am rd') (as_ rd') = 0x8000
    /\ read_line_argb rd' (convert_table g') 0 = Some [0; 0; 0; 0]
    /\ read_line_argb rd' (convert_table g') 1 = Some [255; 0; 0; 255]
    /\ (exists p, argb_pixel_of rd' (convert_table g') [255; 0; 0; 255] 0 p)
    /\ channel_byte (convert_table g') (btable rd') (bs rd') (bm rd')
         (Z.lxor 0x001F 0x8000)
       = channel_byte (convert_table g') (btable rd') (bs rd') (bm rd') 0x001F.
Proof.
  destruct alpha_from_colour_bytes as (Hargb & _ & Hbits & _ & _).
  eexists _, _. split; [vm_compute; reflexivity|].
  split; [reflexivity|].
  split; [vm_compute; reflexivity|].
  match goal with |- ?A = _ /\ _ =>
    assert (H1 : A = Some [255; 0; 0; 255]) by (vm_compute; reflexivity) end.
  split; [exact H1|]. split.
  - destruct (Hargb _ _ _ _ H1) as (_ & line & lb & f & _ & _ & _ & Hpix).
    destruct (Hpix 0%nat) as (p & _ & Hp); [vm_compute; lia|].
    exists p. exact Hp.
  - refine (proj2 (proj2 (Hbits _ _ 0x001F 0x8000 _ _ _ _)));
      vm_compute; reflexivity || discriminate.
Defined.

(** The claim C2 as it is worded keeps the alpha bits of the pixel word
    away from the output alpha byte.  On an accepted BitFields format whose
    red mask covers the alpha bit, the words 0x8000 and 0 differ in the
    alpha bit only and get the alpha bytes 0xFF and 0x00. *)
Lemma alpha_bit_under_red_mask :
  exists rd' g',
    started reader_overlap = Some (rd', g')
    /\ check_format rd' = None
    /\ Z.shiftl (am rd') (as_ rd') = 0x8000
    /\ (f ← read_fn_for_bpp (bpp rd'); fetch_pixel rd' f 0) = Some 0x8000
    /\ (f ← read_fn_for_bpp (bpp rd'); fetch_pixel rd' f 4) = Some 0
    /\ read_line_argb rd' (convert_table g') 0 = Some [0; 0; 129; 255]
    /\ read_line_argb rd' (convert_table g') 1 = Some [0; 0; 0; 0]
    /\ read_line_abgr rd' (convert_table g') 0 = Some [129; 0; 0; 255]
    /\ read_line_abgr rd' (convert_table g') 1 = Some [0; 0; 0; 0].
Proof.
  eexists _, _. split; [vm_compute; reflexivity|].
  split; [reflexivity|]. split; [reflexivity|].
  do 5 (split; [vm_compute; reflexivity|]). vm_compute; reflexivity.
Qed.

(** C7: for an [int] row [r] the scanline read is [r] itself when the
    declared height is negative and [height - 1 - r] otherwise, whenever
    that difference is an [int] (it always is for [r >= 0]); when it is not,
    the readers have no result.  Every pixel [i] of a row that either reader
    returns is the decoding of the word fetched at
    [data + stride * line + i * bpp] for that line.  Over the same bytes,
    row 0 of the image of height -4 is the first stored scanline and row 0
    of the image of height 4 is stored scanline 3. *)
Theorem source_scanline :
  (forall rd row, int_range row -> int_range (height rd) -> height rd < 0 ->
     source_line rd row = Some row)
  /\ (forall rd row, int_range row -> int_range (height rd) -> 0 <= height rd ->
        int_range (height rd - 1 - row) ->
        source_line rd row = Some (height rd - 1 - row))
  /\ (forall rd row, 0 <= row <= INT_MAX -> 0 <= height rd <= INT_MAX ->
        source_line rd row = Some (height rd - 1 - row))
  /\ (forall rd ct row, 0 <= height rd -> ~ int_range (height rd - 1 - row) ->
        source_line rd row = None
        /\ read_line_argb rd ct row = None /\ read_line_abgr rd ct row = None)
  /\ (forall rd ct row out,
        read_line_argb rd ct row = Some out ->
        exists f,
          read_fn_for_bpp (bpp rd) = Some f
          /\ forall i : nat, (i < Z.to_nat (width rd))%nat ->
               exists p,
                 fetch_pixel rd f
                   (data rd
                    + stride rd * (if height rd <? 0 then row
                                   else height rd - 1 - row)
                    + Z.of_nat i * bpp rd) = Some p
                 /\ argb_pixel_of rd ct out i p)
  /\ (forall rd ct row out,
        read_line_abgr rd ct row = Some out ->
        exists f,
          read_fn_for_bpp (bpp rd) = Some f
          /\ forall i : nat, (i < Z.to_nat (width rd))%nat ->
               exists p,
                 fetch_pixel rd f
                   (data rd
                    + stride rd * (if height rd <? 0 then row
                                   else height rd - 1 - row)
                    + Z.of_nat i * bpp rd) = Some p
                 /\ abgr_pixel_of rd ct out i p)
  /\ data_ptr reader_16_top_down = data_ptr reader_16_bottom_up
  /\ source_line reader_16_top_down 0 = Some 0
  /\ source_line reader_16_bottom_up 0 = Some 3
  /\ decode_row_argb reader_16_top_down 0 = Some [255; 0; 0; 255]
  /\ decode_row_argb reader_16_bottom_up 3 = Some [255; 0; 0; 255]
  /\ decode_row_argb reader_16_top_down 3 = Some [255; 255; 255; 255]
  /\ decode_row_argb reader_16_bottom_up 0 = Some [255; 255; 255; 255]
  /\ decode_row_abgr reader_16_top_down 0 = Some [0; 0; 255; 255]
  /\ decode_row_abgr reader_16_bottom_up 3 = Some [0; 0; 255; 255].
Proof.
  split; [exact source_line_top_down|].
  split; [exact source_line_bottom_up|].
  split.
  { intros rd row Hr Hh. apply source_line_bottom_up;
      unfold int_range, INT_MIN, INT_MAX in *; lia. }
  split.
  { intros rd ct row Hh Hov.
    pose proof (source_line_overflow rd row Hh Hov) as E.
    unfold read_line_argb, read_line_abgr. rewrite E.
    repeat split; reflexivity. }
  split.
  { intros rd ct row out H.
    destruct (read_line_argb_inv _ _ _ _ H) as (line & lb & f & H1 & H2 & H3 & Hl).
    apply source_line_inv in H1 as (_ & _ & _ & <-).
    apply line_offset_inv in H2 as [-> _].
    exists f. split; [exact H3|].
    exact (read_line_argb_loop_pixels _ _ _ _ _ _ Hl). }
  split.
  { intros rd ct row out H.
    destruct (read_line_abgr_inv _ _ _ _ H) as (line & lb & f & H1 & H2 & H3 & Hl).
    apply source_line_inv in H1 as (_ & _ & _ & <-).
    apply line_offset_inv in H2 as [-> _].
    exists f. split; [exact H3|].
    exact (read_line_abgr_loop_pixels _ _ _ _ _ _ Hl). }
  do 8 (split; [vm_compute; reflexivity|]). vm_compute; reflexivity.
Qed.

Lemma source_scanline_witness :
  source_line reader_16_top_down 2 = Some 2
  /\ source_line reader_16_bottom_up 2
     = Some (height reader_16_bottom_up - 1 - 2)
  /\ read_line_argb (with_height 1 reader_16_bottom_up) [] INT_MIN = None
  /\ exists rd' g' f,
       started reader_16_bottom_up = Some (rd', g')
       /\ height rd' = 4
       /\ read_line_argb rd' (convert_table g') 0 = Some [255; 255; 255; 255]
       /\ read_fn_for_bpp (bpp rd') = Some f
       /\ exists p,
            fetch_pixel rd' f
              (data rd'
               + stride rd' * (if height rd' <? 0 then 0 else height rd' - 1 - 0)
               + Z.of_nat 0 * bpp rd') = Some p
            /\ argb_pixel_of rd' (convert_table g') [255; 255; 255; 255] 0 p.
Proof.
  destruct source_scanline as (Hneg & _ & Hpos & Hov & Hargb & _).
  split; [apply Hneg; vm_compute; split; discriminate || reflexivity|].
  split; [apply Hpos; vm_compute; split; discriminate|].
  split.
  { refine (proj1 (proj2 (Hov (with_height 1 reader_16_bottom_up) [] INT_MIN _ _))).
    - vm_compute. discriminate.
    - vm_compute. intros [_ H]. apply H. reflexivity. }
  assert (Hex : exists rd' g',
            started reader_16_bottom_up = Some (rd', g')
            /\ width rd' = 1 /\ height rd' = 4
            /\ read_line_argb rd' (convert_table g') 0
               = Some [255; 255; 255; 255]).
  { eexists _, _. split; [vm_compute; reflexivity|].
    split; [reflexivity|]. split; [reflexivity|]. vm_compute; reflexivity. }
  destruct Hex as (rd' & g' & Hs & Hw & Hh & H1).
  destruct (Hargb _ _ _ _ H1) as (f & Hf & Hpix).
  exists rd', g', f. split; [exact Hs|]. split; [exact Hh|].
  split; [exact H1|]. split; [exact Hf|].
  destruct (Hpix 0%nat) as (p & Hp & Hd); [rewrite Hw; simpl; lia|].
  exists p. split; [exact Hp|exact Hd].
Defined.

(** ** The bound check of the row readers *)

(** At or beyond [data_size + bpp] no byte is read: the pixel word is 0. *)
Lemma fetch_pixel_beyond_slack rd f lb :
  to_size_t (data_size rd + bpp rd) <= to_size_t lb ->
  fetch_pixel rd f lb = Some 0.
Proof.
  intros H. unfold fetch_pixel.
  destruct (Z.ltb_spec (to_size_t lb) (to_size_t (data_size rd + bpp rd)));
    [lia|reflexivity].
Qed.

(** Below [data_size + bpp] the reader is called, whether or not the pixel
    lies inside the buffer. *)
Lemma fetch_pixel_within_slack rd f lb :
  to_size_t lb < to_size_t (data_size rd + bpp rd) ->
  fetch_pixel rd f lb = call f (data_ptr rd) (to_size_t lb).
Proof.
  intros H. unfold fetch_pixel.
  destruct (Z.ltb_spec (to_size_t lb) (to_size_t (data_size rd + bpp rd)));
    [reflexivity|lia].
Qed.

(** A byte at or after the declared length is no byte of the buffer. *)
Lemma byte_at_outside buf offset :
  Z.of_nat (length buf) <= offset < 2 ^ 64 ->
  byte_at buf offset 0 = None.
Proof.
  intros H. unfold byte_at. rewrite Z.add_0_r.
  rewrite to_size_t_small by lia. apply load_outside. lia.
Qed.

(** Each reader of [read_fns] starts with the byte at the offset it is
    given. *)
Lemma call_outside f buf offset :
  f ∈ read_fns ->
  Z.of_nat (length buf) <= offset < 2 ^ 64 ->
  call f buf offset = None.
Proof.
  intros Hf Hoff. pose proof (byte_at_outside buf offset Hoff) as Hb.
  unfold read_fns in Hf. rewrite !elem_of_cons in Hf.
  destruct Hf as [->|[->|[->|[->|Hf]]]]; unfold call; simpl;
    try rewrite Hb; try reflexivity.
  apply elem_of_nil in Hf. destruct Hf.
Qed.

(** The offsets from the declared length up to the slack of [bpp] bytes are
    read although they lie outside the buffer. *)
Lemma fetch_pixel_in_slack rd f lb :
  f ∈ read_fns ->
  0 <= bpp rd -> data_size rd + bpp rd < 2 ^ 64 ->
  data_size rd <= lb < data_size rd + bpp rd ->
  fetch_pixel rd f lb = None.
Proof.
  intros Hf Hb Hsz Hlb.
  assert (0 <= data_size rd) by (unfold data_size; lia).
  rewrite fetch_pixel_within_slack by (rewrite !to_size_t_small; lia).
  rewrite to_size_t_small by lia.
  apply call_outside; [exact Hf|]. unfold data_size in *. lia.
Qed.

(** C1 at the failing input: a 16-bit image declared two rows high over a
    buffer of one row (4 bytes).  The pixel of row 1 has offset 4, the
    declared length; the bound check lets it through, the reader is called
    on a byte outside the buffer, and no row is produced where the claim has
    (0,0,0,0). *)
Theorem read_at_declared_length :
  exists rd' g',
    started reader_16_truncated = Some (rd', g')
    /\ check_format rd' = None
    /\ data_size rd' = 4
    /\ source_line rd' 1 = Some 1 /\ line_offset rd' 1 = Some 4
    /\ (4 <? to_size_t (data_size rd' + bpp rd')) = true
    /\ byte_at (data_ptr rd') 4 0 = None
    /\ (λ f, fetch_pixel rd' f 4) <$> read_fns = [None; None; None; None]
    /\ read_line_argb rd' (convert_table g') 1 = None
    /\ read_line_abgr rd' (convert_table g') 1 = None
    /\ read_line_argb rd' (convert_table g') 0 = Some [255; 255; 255; 255].
Proof.
  eexists _, _. split; [vm_compute; reflexivity|].
  split; [reflexivity|]. split; [reflexivity|]. split; [reflexivity|].
  split; [reflexivity|].
  split; [reflexivity|]. split; [reflexivity|].
  split; [vm_compute; reflexivity|].
  split; [vm_compute; reflexivity|].
  split; vm_compute; reflexivity.
Qed.

(** ** The dispatch on the bytes per pixel *)

(** C10 on the code: [read_fns] has four entries and is indexed by [bpp]
    itself.  Index 4 (depth 32) lies outside the array; index 2 (depth 16)
    is the reader of three bytes and index 3 (depth 24) the reader of four,
    which the comments of the array give to [bpp = 3] and [bpp = 4]. *)
Theorem read_fn_for_bpp_index :
  length read_fns = 4%nat
  /\ read_fn_for_bpp 4 = None
  /\ read_fn_for_bpp 2 = read_fns !! 2%nat
  /\ read_fn_for_bpp 3 = read_fns !! 3%nat
  /\ (f ← read_fn_for_bpp 2; call f [0x11; 0x22; 0x33] 0) = Some 0x332211
  /\ (f ← read_fn_for_bpp 2; call f [0x11; 0x22] 0) = None
  /\ (f ← read_fn_for_bpp 3; call f [0x11; 0x22; 0x33; 0x44] 0)
     = Some 0x44332211
  /\ (f ← read_fn_for_bpp 3; call f [0x11; 0x22; 0x33] 0) = None
  /\ (exists rd' g',
        started reader_32 = Some (rd', g')
        /\ check_format rd' = None
        /\ bpp rd' = 4
        /\ read_line_argb rd' (convert_table g') 0 = None
        /\ read_line_abgr rd' (convert_table g') 0 = None).
Proof.
  split; [reflexivity|]. split; [reflexivity|]. split; [reflexivity|].
  split; [reflexivity|].
  do 4 (split; [reflexivity|]).
  eexists _, _. split; [vm_compute; reflexivity|].
  split; [reflexivity|]. split; [reflexivity|].
  split; vm_compute; reflexivity.
Qed.

(** The 24-bit pixel [(0x10, 0x20, 0x30)] followed by the padding byte of
    its row: the bytes the specification gives. *)
Lemma pixel_24_with_next_byte :
  decode_row_argb reader_24_padded 0 = Some [0x10; 0x20; 0x30; 0xFF]
  /\ decode_row_abgr reader_24_padded 0 = Some [0x30; 0x20; 0x10; 0xFF].
Proof. split; vm_compute; reflexivity. Qed.

(** C8 at the failing input: a row of four 24-bit pixels that fills its
    buffer (12 bytes).  The last pixel, [(0x10, 0x20, 0x30)] at offset 9,
    lies inside the buffer; the reader selected for [bpp = 3] takes a fourth
    byte, at offset 12, and no row is produced. *)
Theorem last_pixel_24_reads_fourth_byte :
  exists rd' g',
    started reader_24_row = Some (rd', g')
    /\ check_format rd' = None
    /\ bpp rd' = 3 /\ data_size rd' = 12
    /\ byte_at (data_ptr rd') 9 0 = Some 0x10
    /\ byte_at (data_ptr rd') 9 1 = Some 0x20
    /\ byte_at (data_ptr rd') 9 2 = Some 0x30
    /\ byte_at (data_ptr rd') 9 3 = None
    /\ read_fn_for_bpp (bpp rd') = read_fns !! 3%nat
    /\ (f ← read_fn_for_bpp (bpp rd'); fetch_pixel rd' f 9) = None
    /\ read_line_argb rd' (convert_table g') 0 = None
    /\ read_line_abgr rd' (convert_table g') 0 = None.
Proof.
  eexists _, _. split; [vm_compute; reflexivity|].
  do 8 (split; [reflexivity|]).
  split; [vm_compute; reflexivity|].
  split; vm_compute; reflexivity.
Qed.

(** ** Channels and their tables *)

(** The eight comparisons of the loop of [start], the last match winning. *)
Lemma bind_tables_all m old :
  bind_tables 8 0 m old =
    if m =? 255 then Some 254 else if m =? 127 then Some 126
    else if m =? 63 then Some 62 else if m =? 31 then Some 30
    else if m =? 15 then Some 14 else if m =? 7 then Some 6
    else if m =? 3 then Some 2 else if m =? 1 then Some 0 else old.
Proof.
  cbv [bind_tables bind_table].
  change (width_mask 0) with 1. change (width_mask (0 + 1)) with 3.
  change (width_mask (0 + 1 + 1)) with 7.
  change (width_mask (0 + 1 + 1 + 1)) with 15.
  change (width_mask (0 + 1 + 1 + 1 + 1)) with 31.
  change (width_mask (0 + 1 + 1 + 1 + 1 + 1)) with 63.
  change (width_mask (0 + 1 + 1 + 1 + 1 + 1 + 1)) with 127.
  change (width_mask (0 + 1 + 1 + 1 + 1 + 1 + 1 + 1)) with 255.
  repeat match goal with |- context [get_convert_table ?k] =>
    let v := eval vm_compute in (get_convert_table k) in
    change (get_convert_table k) with v end.
  repeat match goal with |- context [m =? ?c] =>
    destruct (Z.eqb_spec m c); try lia end; reflexivity.
Qed.

Lemma width_cases w (P : Z -> Prop) :
  1 <= w <= 8 -> P 1 -> P 2 -> P 3 -> P 4 -> P 5 -> P 6 -> P 7 -> P 8 -> P w.
Proof.
  intros Hw. assert (w = 1 \/ w = 2 \/ w = 3 \/ w = 4 \/ w = 5 \/ w = 6
                     \/ w = 7 \/ w = 8) as H by lia.
  intuition (subst; assumption).
Qed.

Lemma bind_tables_bound w old :
  1 <= w <= 8 -> bind_tables 8 0 (2 ^ w - 1) old = Some (get_convert_table (w - 1)).
Proof.
  intros Hw. rewrite bind_tables_all.
  apply (width_cases w (fun w =>
    (if 2 ^ w - 1 =? 255 then Some 254 else if 2 ^ w - 1 =? 127 then Some 126
     else if 2 ^ w - 1 =? 63 then Some 62 else if 2 ^ w - 1 =? 31 then Some 30
     else if 2 ^ w - 1 =? 15 then Some 14 else if 2 ^ w - 1 =? 7 then Some 6
     else if 2 ^ w - 1 =? 3 then Some 2 else if 2 ^ w - 1 =? 1 then Some 0
     else old) = Some (get_convert_table (w - 1))) Hw); reflexivity.
Qed.

Lemma bind_tables_unbound m old : no_table_mask m -> bind_tables 8 0 m old = old.
Proof.
  intros H. rewrite bind_tables_all.
  pose proof (H 1 ltac:(lia)). pose proof (H 2 ltac:(lia)).
  pose proof (H 3 ltac:(lia)). pose proof (H 4 ltac:(lia)).
  pose proof (H 5 ltac:(lia)). pose proof (H 6 ltac:(lia)).
  pose proof (H 7 ltac:(lia)). pose proof (H 8 ltac:(lia)).
  repeat match goal with |- context [m =? ?c] =>
    destruct (Z.eqb_spec m c); [exfalso; lia|] end.
  reflexivity.
Qed.

Lemma start_reader rd g rd' g' :
  start rd g = Some (rd', g') ->
  rd' = set_tables
          (bind_tables 8 0 (rm (start_masks rd)) (rtable rd))
          (bind_tables 8 0 (gm (start_masks rd)) (gtable rd))
          (bind_tables 8 0 (bm (start_masks rd)) (btable rd))
          (bind_tables 8 0 (am (start_masks rd)) (atable rd))
          (start_masks rd).
Proof.
  unfold start. change (Z.to_nat NUM_CONVERT_TABLES) with 8%nat.
  destruct (start_loop 8 0 _ _ _) as [[r c]|] eqn:Hrun; [|discriminate].
  simpl. intros [= <- _]. apply start_loop_reader in Hrun.
  destruct (start_masks_header rd) as (_&_&_&_&_&_&_&Hr&Hg&Hb&Ha).
  rewrite Hrun, Hr, Hg, Hb, Ha. reflexivity.
Qed.

Lemma channel_byte_null ct shift mask pixel :
  channel_byte ct None shift mask pixel = None.
Proof. reflexivity. Qed.

(** A row of at least one pixel read with a null colour table. *)
Lemma read_line_loop_null_table rd ct f n lb :
  rtable rd = None \/ gtable rd = None \/ btable rd = None ->
  read_line_argb_loop rd ct f (S n) lb = None
  /\ read_line_abgr_loop rd ct f (S n) lb = None.
Proof.
  intros Hnull.
  rewrite read_line_argb_loop_step, read_line_abgr_loop_step.
  destruct (fetch_pixel rd f _) as [pixel|]; [|split; reflexivity]. simpl.
  destruct Hnull as [->|[->| ->]].
  - split; reflexivity.
  - destruct (channel_byte ct (rtable rd) _ _ pixel); split; reflexivity.
  - destruct (channel_byte ct (rtable rd) _ _ pixel); simpl;
      [|split; reflexivity].
    destruct (channel_byte ct (gtable rd) _ _ pixel); split; reflexivity.
Qed.

Lemma read_line_null_table rd ct row :
  0 < width rd ->
  rtable rd = None \/ gtable rd = None \/ btable rd = None ->
  read_line_argb rd ct row = None /\ read_line_abgr rd ct row = None.
Proof.
  intros Hw Hnull. unfold read_line_argb, read_line_abgr.
  destruct (source_line rd row) as [line|]; [|split; reflexivity].
  cbn [mbind option_bind].
  destruct (line_offset rd line) as [lb|]; [|split; reflexivity].
  cbn [mbind option_bind].
  destruct (read_fn_for_bpp (bpp rd)) as [f|]; [|split; reflexivity].
  destruct (Z.to_nat (width rd)) as [|n] eqn:Hn; [lia|].
  exact (read_line_loop_null_table rd ct f n _ Hnull).
Qed.

(** The byte of a channel whose mask is [2^w - 1], read from the tables that
    the first [start] built. *)
Lemma channel_byte_scaled ct w shift pixel :
  1 <= w <= 8 ->
  (forall k j, 0 <= k < 8 -> 0 <= j < Z.shiftl 1 (k + 1) ->
     load ct (get_convert_table k + j)
     = Some (Z.quot (j * 255) (Z.shiftl 1 (k + 1) - 1))) ->
  channel_byte ct (Some (get_convert_table (w - 1))) shift (2 ^ w - 1) pixel
  = Some (Z.land (Z.shiftr pixel shift) (2 ^ w - 1) * 255 / (2 ^ w - 1)).
Proof.
  intros Hw Htab. unfold channel_byte, table_at. simpl.
  set (v := Z.land (Z.shiftr pixel shift) (2 ^ w - 1)).
  assert (Hpow : 2 <= 2 ^ w).
  { change 2 with (2 ^ 1) at 1. apply Z.pow_le_mono_r; lia. }
  assert (Hv : 0 <= v < 2 ^ w).
  { unfold v. replace (2 ^ w - 1) with (Z.ones w)
      by (rewrite Z.ones_equiv; lia).
    rewrite Z.land_ones by lia. apply Z.mod_pos_bound. lia. }
  assert (Hsh : Z.shiftl 1 w = 2 ^ w) by (rewrite Z.shiftl_mul_pow2; lia).
  specialize (Htab (w - 1) v ltac:(lia)).
  replace (w - 1 + 1) with w in Htab by lia. rewrite Hsh in Htab.
  rewrite Htab by lia. simpl. f_equal.
  rewrite quot_scale by lia. apply to_u8_small. split.
  - apply Z.div_pos; lia.
  - apply Z.div_lt_upper_bound; nia.
Qed.

Lemma no_table_mask_zero : no_table_mask 0.
Proof.
  intros w Hw.
  assert (2 ^ 1 <= 2 ^ w) by (apply Z.pow_le_mono_r; lia).
  change (2 ^ 1) with 2 in *. lia.
Qed.

(** C6 at the failing input: a 16-bit BitFields image whose red mask is 0.
    The format is accepted, the decoded red mask is 0, [start] binds no
    table to red (the pointer stays null), and both row readers index that
    pointer for the one pixel of the row: no row is produced, where the claim
    has a row with the red byte 0. *)
Theorem null_red_table_indexed :
  exists rd' g',
    started reader_no_red = Some (rd', g')
    /\ check_format rd' = None
    /\ width rd' = 1
    /\ rs rd' = 0 /\ rm rd' = 0 /\ rtable rd' = None
    /\ gtable rd' = Some (get_convert_table (5 - 1))
    /\ btable rd' = Some (get_convert_table (5 - 1))
    /\ (f ← read_fn_for_bpp (bpp rd'); fetch_pixel rd' f 0) = Some 0xFFFF
    /\ channel_byte (convert_table g') (rtable rd') (rs rd') (rm rd') 0xFFFF
       = None
    /\ channel_byte (convert_table g') (gtable rd') (gs rd') (gm rd') 0xFFFF
       = Some 255
    /\ read_line_argb rd' (convert_table g') 0 = None
    /\ read_line_abgr rd' (convert_table g') 0 = None.
Proof.
  eexists _, _. split; [vm_compute; reflexivity|].
  do 7 (split; [reflexivity|]).
  do 4 (split; [vm_compute; reflexivity|]). vm_compute; reflexivity.
Qed.

(** ** Uncompressed 24-bit pixels *)

(** The bytes of a packed word. *)
Lemma to_u8_bits x n : 0 <= n -> Z.testbit (to_u8 x) n = Z.testbit x n && (n <? 8).
Proof.
  intros Hn. unfold to_u8. change 0xFF with (Z.ones 8).
  rewrite Z.land_spec, Z.testbit_ones_nonneg by lia. reflexivity.
Qed.

Lemma shiftl_u8_bits x k n :
  0 <= k -> 0 <= n ->
  Z.testbit (Z.shiftl (to_u8 x) k) n
  = Z.testbit x (n - k) && (k <=? n) && (n <? k + 8).
Proof.
  intros Hk Hn. rewrite Z.shiftl_spec by lia.
  destruct (Z.leb_spec k n).
  - rewrite to_u8_bits by lia. rewrite andb_true_r. f_equal.
    destruct (Z.ltb_spec (n - k) 8); destruct (Z.ltb_spec n (k + 8)); lia || reflexivity.
  - rewrite Z.testbit_neg_r by lia. rewrite andb_false_r. reflexivity.
Qed.

Lemma int_pack_32_le_byte a b c d k :
  k = 0 \/ k = 8 \/ k = 16 \/ k = 24 ->
  Z.land (Z.shiftr (int_pack_32_le a b c d) k) 0xFF
  = to_u8 (if k =? 0 then a else if k =? 8 then b else if k =? 16 then c else d).
Proof.
  intros Hk. apply Z.bits_inj'. intros n Hn.
  change 0xFF with (Z.ones 8).
  rewrite Z.land_spec, Z.testbit_ones_nonneg, Z.shiftr_spec by lia.
  unfold int_pack_32_le. rewrite !Z.lor_spec.
  rewrite <- (Z.shiftl_0_r (to_u8 a)).
  rewrite !shiftl_u8_bits by lia.
  rewrite to_u8_bits by lia.
  destruct (Z.ltb_spec n 8); [|rewrite !andb_false_r; reflexivity].
  rewrite !andb_true_r.
  destruct Hk as [->|[->|[->| ->]]]; simpl Z.eqb; cbv iota;
    repeat match goal with
    | |- context [?x <=? ?y] => destruct (Z.leb_spec x y); try lia
    | |- context [?x <? ?y] => destruct (Z.ltb_spec x y); try lia
    end;
    rewrite ?andb_true_r, ?andb_false_r, ?orb_false_r, ?orb_false_l;
    f_equal; lia.
Qed.

Lemma start_masks_rgb888 rd :
  compression rd = RGB -> depth rd = 24 \/ depth rd = 32 ->
  rs (start_masks rd) = 16 /\ rm (start_masks rd) = 255
  /\ gs (start_masks rd) = 8 /\ gm (start_masks rd) = 255
  /\ bs (start_masks rd) = 0 /\ bm (start_masks rd) = 255
  /\ as_ (start_masks rd) = 0 /\ am (start_masks rd) = 0.
Proof.
  intros Hc Hd. unfold start_masks. rewrite Hc.
  rewrite bool_decide_eq_false_2 by discriminate. simpl depth.
  destruct Hd as [-> | ->]; simpl; repeat split; reflexivity.
Qed.

Lemma byte_at_inside buf offset k c :
  0 <= offset -> 0 <= k -> offset + k < 2 ^ 64 ->
  buf !! Z.to_nat (offset + k) = Some c ->
  byte_at buf offset k = Some c.
Proof.
  intros Ho Hk Hlt Hc. unfold byte_at. rewrite to_size_t_small by lia.
  unfold load. destruct (Z.ltb_spec (offset + k) 0); [lia|exact Hc].
Qed.

(** An uncompressed 24-bit pixel [(c0, c1, c2)] that is followed by one more
    byte of the buffer decodes to blue [c0], green [c1], red [c2] and the
    alpha of the three: the reader called for [bpp = 3] takes the fourth
    byte too, and the default masks drop it. *)
Lemma pixel_24_followed_by_a_byte rd g rd' g' off c0 c1 c2 c3 :
  convert_table_init g = false ->
  Z.of_nat (length (convert_table g)) = convert_table_size ->
  compression rd = RGB -> depth rd = 24 ->
  start rd g = Some (rd', g') ->
  0 <= off -> data_size rd + 3 < 2 ^ 64 ->
  data_ptr rd !! Z.to_nat (off + 0) = Some c0 ->
  data_ptr rd !! Z.to_nat (off + 1) = Some c1 ->
  data_ptr rd !! Z.to_nat (off + 2) = Some c2 ->
  data_ptr rd !! Z.to_nat (off + 3) = Some c3 ->
  0 <= c0 < 256 -> 0 <= c1 < 256 -> 0 <= c2 < 256 ->
  exists f,
    read_fn_for_bpp (bpp rd') = Some f
    /\ read_line_argb_loop rd' (convert_table g') f 1 off
       = Some [c0; c1; c2; alpha_of c0 c1 c2]
    /\ read_line_abgr_loop rd' (convert_table g') f 1 off
       = Some [c2; c1; c0; alpha_of c0 c1 c2].
Proof.
  intros Hinit Hlen Hc Hd Hstart Hoff Hsz H0 H1 H2 H3 R0 R1 R2.
  destruct (start_returns rd g Hlen) as (ct' & Hs & _ & _ & Htab).
  rewrite Hstart in Hs. injection Hs as Hrd Hg. specialize (Htab Hinit).
  destruct (start_masks_rgb888 rd Hc (or_introl Hd))
    as (Ers & Erm & Egs & Egm & Ebs & Ebm & _ & _).
  destruct (start_masks_header rd) as (Hbuf & _ & _ & Hdep & _).
  assert (Hdata : data_ptr rd' = data_ptr rd) by (rewrite Hrd; exact Hbuf).
  assert (Hbpp : bpp rd' = 3).
  { unfold bpp. rewrite Hrd. simpl depth. rewrite Hdep, Hd. reflexivity. }
  assert (Hsize : data_size rd' = data_size rd)
    by (unfold data_size; rewrite Hdata; reflexivity).
  assert (Hin : off + 3 < data_size rd).
  { apply lookup_lt_Some in H3. unfold data_size. lia. }
  rewrite Hbpp. eexists. split; [reflexivity|].
  assert (Hfetch : fetch_pixel rd' (Some (λ buf offset,
            a ← byte_at buf offset 0; b ← byte_at buf offset 1;
            c ← byte_at buf offset 2; d ← byte_at buf offset 3;
            Some (int_pack_32_le a b c d))) off
          = Some (int_pack_32_le c0 c1 c2 c3)).
  { rewrite fetch_pixel_within_slack
      by (rewrite Hsize, Hbpp, !to_size_t_small; unfold data_size in *; lia).
    rewrite to_size_t_small by lia. unfold call. simpl. rewrite Hdata.
    rewrite (byte_at_inside _ off 0 c0), (byte_at_inside _ off 1 c1),
      (byte_at_inside _ off 2 c2), (byte_at_inside _ off 3 c3)
      by (assumption || lia).
    reflexivity. }
  assert (Hmasks : rs rd' = 16 /\ rm rd' = 255 /\ gs rd' = 8 /\ gm rd' = 255
                   /\ bs rd' = 0 /\ bm rd' = 255).
  { rewrite Hrd. repeat split; assumption. }
  destruct Hmasks as (Ers' & Erm' & Egs' & Egm' & Ebs' & Ebm').
  assert (Htables : rtable rd' = Some (get_convert_table (8 - 1))
                    /\ gtable rd' = Some (get_convert_table (8 - 1))
                    /\ btable rd' = Some (get_convert_table (8 - 1))).
  { assert (Hr0 : rtable rd' = bind_tables 8 0 (rm rd') (rtable rd))
      by (rewrite Hrd; reflexivity).
    assert (Hg0 : gtable rd' = bind_tables 8 0 (gm rd') (gtable rd))
      by (rewrite Hrd; reflexivity).
    assert (Hb0 : btable rd' = bind_tables 8 0 (bm rd') (btable rd))
      by (rewrite Hrd; reflexivity).
    rewrite Hr0, Hg0, Hb0, Erm', Egm', Ebm'.
    repeat split; apply (bind_tables_bound 8); lia. }
  destruct Htables as (Hrt & Hgt & Hbt).
  assert (Hct : convert_table g' = ct') by (rewrite Hg; reflexivity).
  assert (Hch : forall shift c,
            shift = 0 \/ shift = 8 \/ shift = 16 \/ shift = 24 ->
            to_u8 (if shift =? 0 then c0 else if shift =? 8 then c1
                   else if shift =? 16 then c2 else c3) = c ->
            channel_byte ct' (Some (get_convert_table (8 - 1))) shift 255
              (int_pack_32_le c0 c1 c2 c3) = Some c).
  { intros shift c Hshift Hbyte.
    change 255 with (2 ^ 8 - 1) at 1.
    rewrite (channel_byte_scaled ct' 8 shift _ ltac:(lia) Htab).
    change (2 ^ 8 - 1) with 255.
    rewrite (int_pack_32_le_byte c0 c1 c2 c3 shift Hshift), Hbyte.
    rewrite Z.div_mul by lia. reflexivity. }
  assert (Hr : channel_byte (convert_table g') (rtable rd') (rs rd') (rm rd')
                 (int_pack_32_le c0 c1 c2 c3) = Some c2).
  { rewrite Hct, Hrt, Ers', Erm'. apply Hch; [lia|]. apply to_u8_small, R2. }
  assert (Hgr : channel_byte (convert_table g') (gtable rd') (gs rd') (gm rd')
                 (int_pack_32_le c0 c1 c2 c3) = Some c1).
  { rewrite Hct, Hgt, Egs', Egm'. apply Hch; [lia|]. apply to_u8_small, R1. }
  assert (Hb : channel_byte (convert_table g') (btable rd') (bs rd') (bm rd')
                 (int_pack_32_le c0 c1 c2 c3) = Some c0).
  { rewrite Hct, Hbt, Ebs', Ebm'. apply Hch; [lia|]. apply to_u8_small, R0. }
  rewrite read_line_argb_loop_step, read_line_abgr_loop_step.
  rewrite Hfetch. simpl. rewrite Hr. simpl. rewrite Hgr. simpl. rewrite Hb. simpl.
  rewrite synth_alpha_spec, (alpha_of_perm c2 c1 c0). split; reflexivity.
Qed.

(** * Further properties *)

(** ** The statics across calls of start *)

Lemma tables_built_of_start ct :
  (forall k j, 0 <= k < 8 -> 0 <= j < Z.shiftl 1 (k + 1) ->
     load ct (get_convert_table k + j)
     = Some (Z.quot (j * 255) (Z.shiftl 1 (k + 1) - 1))) ->
  tables_built ct.
Proof.
  intros H w j Hw Hj.
  assert (Hsh : Z.shiftl 1 w = 2 ^ w) by (rewrite Z.shiftl_mul_pow2; lia).
  specialize (H (w - 1) j ltac:(lia)).
  replace (w - 1 + 1) with w in H by lia. rewrite Hsh in H.
  assert (2 ^ 1 <= 2 ^ w) by (apply Z.pow_le_mono_r; lia).
  rewrite H by lia. f_equal. apply quot_scale; lia.
Qed.

Lemma tables_built_inv ct :
  tables_built ct ->
  forall k j, 0 <= k < 8 -> 0 <= j < Z.shiftl 1 (k + 1) ->
    load ct (get_convert_table k + j)
    = Some (Z.quot (j * 255) (Z.shiftl 1 (k + 1) - 1)).
Proof.
  intros H k j Hk Hj.
  assert (Hsh : Z.shiftl 1 (k + 1) = 2 ^ (k + 1))
    by (rewrite Z.shiftl_mul_pow2; lia).
  rewrite Hsh in *. specialize (H (k + 1) j ltac:(lia) Hj).
  replace (k + 1 - 1) with k in H by lia. rewrite H. f_equal.
  assert (2 ^ 1 <= 2 ^ (k + 1)) by (apply Z.pow_le_mono_r; lia).
  symmetry. apply quot_scale; lia.
Qed.

Lemma initial_globals_ok : globals_ok initial_globals.
Proof. split; [reflexivity|discriminate]. Qed.

Lemma start_globals rd g :
  globals_ok g ->
  exists rd' g',
    start rd g = Some (rd', g')
    /\ globals_ok g' /\ convert_table_init g' = true
    /\ tables_built (convert_table g')
    /\ (convert_table_init g = true -> g' = g).
Proof.
  intros [Hlen Hinv].
  destruct (start_returns rd g Hlen) as (ct' & Hs & Hl & Hsame & Hnew).
  eexists _, _. split; [exact Hs|]. simpl.
  assert (Hb : tables_built ct').
  { destruct (convert_table_init g) eqn:Hi.
    - rewrite Hsame by reflexivity. apply Hinv. reflexivity.
    - apply tables_built_of_start, Hnew. reflexivity. }
  split; [split; [cbn [convert_table]; rewrite Hl; exact Hlen|intros _; exact Hb]|].
  split; [reflexivity|]. split; [exact Hb|].
  intros Hi. rewrite (Hsame Hi). destruct g as [i c]. simpl in Hi.
  rewrite Hi. reflexivity.
Qed.

(** X1: the statics are an invariant of [start].  From the zeroed statics
    of a fresh process, and from every state a call of [start] leaves, a
    call of [start] returns with the eight tables in place and the flag set;
    once the flag is set, a call changes neither the flag nor one entry of
    the array, so the tables are built by the first call only. *)
Theorem start_keeps_statics :
  globals_ok initial_globals
  /\ forall rd g, globals_ok g ->
       exists rd' g',
         start rd g = Some (rd', g')
         /\ globals_ok g' /\ convert_table_init g' = true
         /\ tables_built (convert_table g')
         /\ (convert_table_init g = true -> g' = g).
Proof. split; [exact initial_globals_ok|exact start_globals]. Qed.

Lemma start_keeps_statics_witness :
  exists rd1 g1 rd2,
    start reader_24_padded initial_globals = Some (rd1, g1)
    /\ start reader_16_top_down g1 = Some (rd2, g1).
Proof.
  destruct start_keeps_statics as [H0 Hstep].
  destruct (Hstep reader_24_padded initial_globals H0)
    as (rd1 & g1 & Hs1 & Hok1 & Hi1 & _ & _).
  destruct (Hstep reader_16_top_down g1 Hok1)
    as (rd2 & g2 & Hs2 & _ & _ & _ & Hsame).
  exists rd1, g1, rd2. split; [exact Hs1|].
  rewrite Hs2, (Hsame Hi1). reflexivity.
Defined.

(** ** start twice *)

Lemma start_masks_set_tables a b c d rd :
  start_masks (set_tables a b c d rd) = set_tables a b c d (start_masks rd).
Proof.
  destruct rd. unfold start_masks. simpl.
  case_bool_decide; [reflexivity|].
  destruct (_ =? 16); [reflexivity|].
  destruct ((_ =? 24) || (_ =? 32)); reflexivity.
Qed.

Lemma start_masks_idem rd : start_masks (start_masks rd) = start_masks rd.
Proof.
  destruct rd as [buf w h d c rk gk bk ak st dt s1 s2 s3 s4 m1 m2 m3 m4 t1 t2 t3 t4].
  unfold start_masks. simpl.
  destruct (bool_decide (c = BitFields)) eqn:Hc; simpl; rewrite ?Hc; simpl.
  - reflexivity.
  - destruct (d =? 16) eqn:H16; simpl; rewrite ?Hc; simpl; rewrite ?H16; simpl.
    + reflexivity.
    + destruct ((d =? 24) || (d =? 32)) eqn:H24; simpl; rewrite ?Hc; simpl;
        rewrite ?H16; simpl; rewrite ?H24; reflexivity.
Qed.

Lemma bind_tables_idem m old :
  bind_tables 8 0 m (bind_tables 8 0 m old) = bind_tables 8 0 m old.
Proof.
  rewrite !bind_tables_all.
  repeat match goal with |- context [m =? ?c] =>
    destruct (Z.eqb_spec m c); [reflexivity|] end.
  reflexivity.
Qed.

Lemma set_tables_set_tables a b c d a' b' c' d' rd :
  set_tables a b c d (set_tables a' b' c' d' rd) = set_tables a b c d rd.
Proof. reflexivity. Qed.

Lemma start_inv rd g rd' g' :
  start rd g = Some (rd', g') ->
  exists ct',
    start_loop 8 0 (convert_table_init g) (start_masks rd) (convert_table g)
    = Some (rd', ct')
    /\ g' = Globals true ct'.
Proof.
  unfold start. change (Z.to_nat NUM_CONVERT_TABLES) with 8%nat.
  destruct (start_loop 8 0 _ _ _) as [[r c]|]; [|discriminate].
  intros [= <- <-]. eauto.
Qed.

Lemma start_of_loop rd g r c :
  start_loop 8 0 (convert_table_init g) (start_masks rd) (convert_table g)
  = Some (r, c) ->
  start rd g = Some (r, Globals true c).
Proof.
  unfold start. change (Z.to_nat NUM_CONVERT_TABLES) with 8%nat.
  intros ->. reflexivity.
Qed.

(** X2: [start] is idempotent.  A second call on the reader and the statics
    that a first call has left returns the same reader and the same
    statics. *)
Theorem start_idempotent rd g rd' g' :
  start rd g = Some (rd', g') -> start rd' g' = Some (rd', g').
Proof.
  intros Hs. pose proof (start_reader _ _ _ _ Hs) as Hrd.
  destruct (start_inv _ _ _ _ Hs) as (ct' & _ & ->). clear Hs.
  destruct (start_loop_built 8 0 (start_masks rd') ct') as [r Hrun].
  assert (Hr : r = rd').
  { apply start_loop_reader in Hrun. rewrite Hrun. clear Hrun.
    set (X := start_masks rd) in *.
    set (A := bind_tables 8 0 (rm X) (rtable rd)) in *.
    set (B := bind_tables 8 0 (gm X) (gtable rd)) in *.
    set (C := bind_tables 8 0 (bm X) (btable rd)) in *.
    set (D := bind_tables 8 0 (am X) (atable rd)) in *.
    assert (Hm : start_masks rd' = rd').
    { rewrite Hrd, start_masks_set_tables. unfold X.
      rewrite start_masks_idem. reflexivity. }
    rewrite Hm, Hrd.
    change (set_tables (bind_tables 8 0 (rm X) A) (bind_tables 8 0 (gm X) B)
              (bind_tables 8 0 (bm X) C) (bind_tables 8 0 (am X) D) X
            = set_tables A B C D X).
    unfold A, B, C, D. rewrite !bind_tables_idem. reflexivity. }
  rewrite Hr in Hrun. exact (start_of_loop rd' (Globals true ct') _ _ Hrun).
Qed.

Lemma start_idempotent_witness :
  exists rd' g',
    start reader_1555 initial_globals = Some (rd', g')
    /\ start rd' g' = Some (rd', g').
Proof.
  destruct (start_returns reader_1555 initial_globals eq_refl)
    as (ct' & Hs & _).
  eexists _, _. split; [exact Hs|]. exact (start_idempotent _ _ _ _ Hs).
Defined.

(** ** The two row readers side by side *)

Lemma read_line_loops_swap rd ct f n lb :
  read_line_abgr_loop rd ct f n lb
  = swap_rb <$> read_line_argb_loop rd ct f n lb.
Proof.
  revert lb. induction n as [|n IH]; intros lb; [reflexivity|].
  rewrite read_line_argb_loop_step, read_line_abgr_loop_step.
  destruct (fetch_pixel rd f lb) as [pixel|]; [|reflexivity]. simpl.
  destruct (channel_byte ct (rtable rd) _ _ pixel) as [r|]; [|reflexivity].
  simpl.
  destruct (channel_byte ct (gtable rd) _ _ pixel) as [g|]; [|reflexivity].
  simpl.
  destruct (channel_byte ct (btable rd) _ _ pixel) as [b|]; [|reflexivity].
  simpl. rewrite IH.
  destruct (read_line_argb_loop rd ct f n (lb + bpp rd)); reflexivity.
Qed.

Lemma swap_rb_involutive out : swap_rb (swap_rb out) = out.
Proof.
  assert (H : forall n (l : list Z), (length l <= n)%nat ->
            swap_rb (swap_rb l) = l).
  { intros n. induction n as [|n IH]; intros l Hl.
    - destruct l; [reflexivity|simpl in Hl; lia].
    - destruct l as [|c0 [|c1 [|c2 [|c3 rest]]]]; try reflexivity.
      simpl. rewrite IH by (simpl in Hl; lia). reflexivity. }
  apply (H (length out)). lia.
Qed.

(** X3: the two row readers decode the same pixels and differ in the byte
    order only.  On every reader, table array and row, [read_line_abgr]
    gives the row of [read_line_argb] with the first and the third byte of
    each pixel exchanged, and the other way round; one has no result exactly
    when the other has none. *)
Theorem readers_differ_in_byte_order rd ct row :
  read_line_abgr rd ct row = swap_rb <$> read_line_argb rd ct row
  /\ read_line_argb rd ct row = swap_rb <$> read_line_abgr rd ct row
  /\ (read_line_argb rd ct row = None <-> read_line_abgr rd ct row = None).
Proof.
  assert (H : read_line_abgr rd ct row = swap_rb <$> read_line_argb rd ct row).
  { unfold read_line_abgr, read_line_argb.
    destruct (source_line rd row) as [line|]; [|reflexivity].
    cbn [mbind option_bind].
    destruct (line_offset rd line) as [lb|]; [|reflexivity].
    cbn [mbind option_bind].
    destruct (read_fn_for_bpp (bpp rd)) as [f|]; [|reflexivity].
    apply read_line_loops_swap. }
  split; [exact H|]. rewrite H.
  destruct (read_line_argb rd ct row) as [out|]; simpl.
  - rewrite swap_rb_involutive. split; [reflexivity|]. split; discriminate.
  - split; [reflexivity|]. split; reflexivity.
Qed.

(** ** The sign of the height *)

Lemma read_line_argb_loop_height h rd ct f n lb :
  read_line_argb_loop (with_height h rd) ct f n lb
  = read_line_argb_loop rd ct f n lb.
Proof.
  revert lb. induction n as [|n IH]; intros lb; [reflexivity|].
  rewrite !read_line_argb_loop_step, IH. reflexivity.
Qed.

Lemma read_line_abgr_loop_height h rd ct f n lb :
  read_line_abgr_loop (with_height h rd) ct f n lb
  = read_line_abgr_loop rd ct f n lb.
Proof.
  revert lb. induction n as [|n IH]; intros lb; [reflexivity|].
  rewrite !read_line_abgr_loop_step, IH. reflexivity.
Qed.

(** X4: the sign of the declared height reverses the order of the rows and
    changes nothing else.  For a height [h] in 1..INT_MAX and an [int] row
    [r] for which [h - 1 - r] is an [int] too, output row [r] of the image
    of height [-h] (top-down) is output row [h - 1 - r] of the image of
    height [h] (bottom-up) over the same members, for both readers. *)
Theorem height_sign_reverses_rows rd ct h r :
  0 < h <= INT_MAX -> int_range r -> int_range (h - 1 - r) ->
  read_line_argb (with_height h rd) ct (h - 1 - r)
  = read_line_argb (with_height (- h) rd) ct r
  /\ read_line_abgr (with_height h rd) ct (h - 1 - r)
     = read_line_abgr (with_height (- h) rd) ct r.
Proof.
  intros Hh Hr Hr'.
  assert (Hih : int_range h /\ int_range (- h))
    by (unfold int_range, INT_MIN, INT_MAX in *; lia).
  destruct Hih as [Hih Hinh].
  assert (E1 : source_line (with_height h rd) (h - 1 - r) = Some r).
  { rewrite source_line_bottom_up; simpl height; try assumption; try lia.
    - f_equal. lia.
    - replace (h - 1 - (h - 1 - r)) with r by lia. exact Hr. }
  assert (E2 : source_line (with_height (- h) rd) r = Some r).
  { apply source_line_top_down; simpl height; try assumption. lia. }
  unfold read_line_argb, read_line_abgr. rewrite E1, E2.
  cbn [mbind option_bind].
  change (line_offset (with_height h rd) r) with (line_offset rd r).
  change (line_offset (with_height (- h) rd) r) with (line_offset rd r).
  destruct (line_offset rd r) as [lb|]; [|split; reflexivity].
  cbn [mbind option_bind].
  change (bpp (with_height h rd)) with (bpp rd).
  change (bpp (with_height (- h) rd)) with (bpp rd).
  destruct (read_fn_for_bpp (bpp rd)) as [f|]; [|split; reflexivity].
  split.
  - exact (eq_trans (read_line_argb_loop_height h rd ct f _ _)
             (eq_sym (read_line_argb_loop_height (- h) rd ct f _ _))).
  - exact (eq_trans (read_line_abgr_loop_height h rd ct f _ _)
             (eq_sym (read_line_abgr_loop_height (- h) rd ct f _ _))).
Qed.

Lemma height_sign_reverses_rows_witness :
  exists rd' g',
    started reader_16_top_down = Some (rd', g')
    /\ read_line_argb (with_height (- 4) rd') (convert_table g') 1
       = Some [0; 255; 0; 255]
    /\ read_line_argb (with_height 4 rd') (convert_table g') (4 - 1 - 1)
       = read_line_argb (with_height (- 4) rd') (convert_table g') 1.
Proof.
  eexists _, _. split; [vm_compute; reflexivity|].
  split; [vm_compute; reflexivity|].
  refine (proj1 (height_sign_reverses_rows _ _ 4 1 _ _ _));
    unfold int_range, INT_MIN, INT_MAX; lia.
Defined.

(** ** decode_bitfield on a shifted run *)

(** X5: a mask put together from a shift [k] and an odd reduced mask [mk]
    decodes to exactly [(k, mk)], in both branches of the [#ifdef]; and the
    reduced mask returned for a non-zero mask is always odd, so decoding it
    again gives shift 0 and the same mask. *)
Theorem decode_bitfield_round_trip :
  (forall mk k, 0 < mk -> Z.odd mk = true -> 0 <= k ->
     decode_bitfield (Z.shiftl mk k) = (k, mk)
     /\ decode_bitfield_gnuc (Z.shiftl mk k) = (k, mk))
  /\ (forall m, 0 < m ->
        Z.odd (snd (decode_bitfield m)) = true
        /\ decode_bitfield (snd (decode_bitfield m))
           = (0, snd (decode_bitfield m))).
Proof.
  split.
  - intros mk k Hpos Hodd Hk.
    pose proof (decode_bitfield_shiftl mk k Hpos Hodd Hk) as H.
    split; [exact H|]. rewrite decode_bitfield_gnuc_eq; [exact H|].
    apply Z.shiftl_nonneg. lia.
  - intros m Hm. destruct m as [|p|p]; try lia.
    unfold decode_bitfield at 1 3 4.
    destruct (decode_bitfield_loop_spec p 0) as (mk & -> & Hodd & Hpos & _).
    simpl snd. split; [exact Hodd|].
    rewrite <- (Z.shiftl_0_r mk) at 1.
    apply decode_bitfield_shiftl; [exact Hpos|exact Hodd|lia].
Qed.

Lemma decode_bitfield_round_trip_witness :
  decode_bitfield (Z.shiftl 0x3F 5) = (5, 0x3F)
  /\ Z.odd (snd (decode_bitfield 0xF800)) = true.
Proof.
  destruct decode_bitfield_round_trip as [Hrt Hodd].
  split.
  - exact (proj1 (Hrt 0x3F 5 ltac:(lia) eq_refl ltac:(lia))).
  - exact (proj1 (Hodd 0xF800 ltac:(lia))).
Defined.

(** ** Uncompressed formats *)

Lemma start_masks_rgb555 rd :
  compression rd = RGB -> depth rd = 16 ->
  rs (start_masks rd) = 10 /\ rm (start_masks rd) = 31
  /\ gs (start_masks rd) = 5 /\ gm (start_masks rd) = 31
  /\ bs (start_masks rd) = 0 /\ bm (start_masks rd) = 31
  /\ as_ (start_masks rd) = 0 /\ am (start_masks rd) = 0.
Proof.
  intros Hc Hd. unfold start_masks. rewrite Hc.
  rewrite bool_decide_eq_false_2 by discriminate. simpl depth.
  rewrite Hd. simpl. repeat split; reflexivity.
Qed.

Lemma start_result rd g rd' g' :
  start rd g = Some (rd', g') ->
  data_ptr rd' = data_ptr rd /\ width rd' = width rd
  /\ height rd' = height rd /\ depth rd' = depth rd
  /\ compression rd' = compression rd /\ stride rd' = stride rd
  /\ data rd' = data rd
  /\ rs rd' = rs (start_masks rd) /\ rm rd' = rm (start_masks rd)
  /\ gs rd' = gs (start_masks rd) /\ gm rd' = gm (start_masks rd)
  /\ bs rd' = bs (start_masks rd) /\ bm rd' = bm (start_masks rd)
  /\ as_ rd' = as_ (start_masks rd) /\ am rd' = am (start_masks rd)
  /\ rtable rd' = bind_tables 8 0 (rm rd') (rtable rd)
  /\ gtable rd' = bind_tables 8 0 (gm rd') (gtable rd)
  /\ btable rd' = bind_tables 8 0 (bm rd') (btable rd)
  /\ atable rd' = bind_tables 8 0 (am rd') (atable rd).
Proof.
  intros Hs. apply start_reader in Hs.
  destruct (start_masks_header rd) as (H1&H2&H3&H4&H5&H6&H7&_).
  rewrite Hs. repeat split; assumption.
Qed.

(** X6: every uncompressed image with a supported depth and dimensions in
    range is ready to be read after [start]: the format is accepted, the
    masks declared in the header are ignored in favour of 5-5-5 (depth 16) or
    8-8-8 (depth 24 and 32), each colour channel is bound to the table of
    its width, and the alpha channel has shift 0, mask 0 and no table of its
    own. *)
Theorem uncompressed_format_ready rd g :
  globals_ok g -> compression rd = RGB -> depth_ok rd -> dims_ok rd ->
  exists rd' g',
    start rd g = Some (rd', g')
    /\ check_format rd' = None
    /\ as_ rd' = 0 /\ am rd' = 0 /\ atable rd' = atable rd
    /\ (depth rd = 16 ->
        (rs rd', gs rd', bs rd') = (10, 5, 0)
        /\ (rm rd', gm rd', bm rd') = (31, 31, 31)
        /\ rtable rd' = Some (get_convert_table (5 - 1))
        /\ gtable rd' = Some (get_convert_table (5 - 1))
        /\ btable rd' = Some (get_convert_table (5 - 1)))
    /\ (depth rd = 24 \/ depth rd = 32 ->
        (rs rd', gs rd', bs rd') = (16, 8, 0)
        /\ (rm rd', gm rd', bm rd') = (255, 255, 255)
        /\ rtable rd' = Some (get_convert_table (8 - 1))
        /\ gtable rd' = Some (get_convert_table (8 - 1))
        /\ btable rd' = Some (get_convert_table (8 - 1))).
Proof.
  intros Hg Hc Hdep Hdim.
  destruct (start_globals rd g Hg) as (rd' & g' & Hs & _).
  exists rd', g'. split; [exact Hs|].
  destruct (start_result _ _ _ _ Hs)
    as (_&Hw&Hh&Hd&Hco&_&_&Ers&Erm&Egs&Egm&Ebs&Ebm&Eas&Eam&Hrt&Hgt&Hbt&Hat).
  assert (Hmasks :
    (depth rd = 16 /\ rs rd' = 10 /\ rm rd' = 2 ^ 5 - 1 /\ gs rd' = 5
     /\ gm rd' = 2 ^ 5 - 1 /\ bs rd' = 0 /\ bm rd' = 2 ^ 5 - 1
     /\ as_ rd' = 0 /\ am rd' = 0)
    \/ ((depth rd = 24 \/ depth rd = 32) /\ rs rd' = 16 /\ rm rd' = 2 ^ 8 - 1
        /\ gs rd' = 8 /\ gm rd' = 2 ^ 8 - 1 /\ bs rd' = 0 /\ bm rd' = 2 ^ 8 - 1
        /\ as_ rd' = 0 /\ am rd' = 0)).
  { rewrite Ers, Erm, Egs, Egm, Ebs, Ebm, Eas, Eam.
    destruct Hdep as [H16|H2432].
    - left. split; [exact H16|]. exact (start_masks_rgb555 rd Hc H16).
    - right. split; [exact H2432|]. exact (start_masks_rgb888 rd Hc H2432). }
  assert (Ha0 : as_ rd' = 0 /\ am rd' = 0) by (destruct Hmasks; tauto).
  destruct Ha0 as [Has Ham].
  assert (Hok : masks_ok rd').
  { unfold masks_ok. rewrite Ham.
    destruct Hmasks as [(_&_&->&_&->&_&->&_)|(_&_&->&_&->&_&->&_)];
      vm_compute; repeat split; discriminate. }
  split.
  { destruct (check_format_cases rd') as [C|[C|[C|[C|[C|C]]]]].
    - unfold dims_ok in Hdim. lia.
    - exfalso. apply (proj1 (proj2 C)). unfold dims_ok in *.
      rewrite Hw, Hh. exact Hdim.
    - exfalso. apply (proj1 (proj2 C)). unfold depth_ok in *.
      rewrite Hd. exact Hdep.
    - exfalso. apply (proj1 (proj2 (proj2 C))). unfold compression_ok.
      rewrite Hco. left. exact Hc.
    - exfalso. apply (proj1 (proj2 (proj2 (proj2 C)))). exact Hok.
    - apply C. }
  split; [exact Has|]. split; [exact Ham|].
  split. { rewrite Hat, Ham. apply bind_tables_unbound, no_table_mask_zero. }
  split.
  - intros H16.
    destruct Hmasks as [(_&R1&R2&G1&G2&B1&B2&_)|([H|H]&_)]; try lia.
    rewrite Hrt, Hgt, Hbt, R1, R2, G1, G2, B1, B2.
    rewrite !bind_tables_bound by lia. repeat split.
  - intros H2432.
    destruct Hmasks as [(H&_)|(_&R1&R2&G1&G2&B1&B2&_)]; try lia.
    rewrite Hrt, Hgt, Hbt, R1, R2, G1, G2, B1, B2.
    rewrite !bind_tables_bound by lia. repeat split.
Qed.

Lemma uncompressed_format_ready_witness :
  exists rd' g',
    start reader_24_row initial_globals = Some (rd', g')
    /\ check_format rd' = None
    /\ rtable rd' = Some (get_convert_table (8 - 1)).
Proof.
  destruct (uncompressed_format_ready reader_24_row initial_globals
              initial_globals_ok eq_refl)
    as (rd' & g' & Hs & Hck & _ & _ & _ & _ & H24).
  - right; left; reflexivity.
  - unfold dims_ok. simpl. lia.
  - exists rd', g'. split; [exact Hs|]. split; [exact Hck|].
    apply H24. left. reflexivity.
Defined.

(** ** BitFields channels *)

Lemma start_masks_bitfields rd :
  compression rd = BitFields ->
  (rs (start_masks rd), rm (start_masks rd)) = decode_bitfield (red_mask rd)
  /\ (gs (start_masks rd), gm (start_masks rd)) = decode_bitfield (green_mask rd)
  /\ (bs (start_masks rd), bm (start_masks rd)) = decode_bitfield (blue_mask rd)
  /\ (as_ (start_masks rd), am (start_masks rd)) = decode_bitfield (alpha_mask rd).
Proof.
  intros Hc. unfold start_masks. rewrite (bool_decide_eq_true_2 _ Hc). simpl.
  repeat split; symmetry; apply surjective_pairing.
Qed.

Lemma run_mask_odd w : 1 <= w <= 8 -> 0 < 2 ^ w - 1 /\ Z.odd (2 ^ w - 1) = true.
Proof.
  intros Hw.
  apply (width_cases w (fun w => 0 < 2 ^ w - 1 /\ Z.odd (2 ^ w - 1) = true) Hw);
    split; reflexivity.
Qed.

(** One channel: the header mask is a run of [w] bits from bit [k] on. *)
Lemma run_channel_scaled ct table old shift mask hmask w k pixel :
  tables_built ct -> 1 <= w <= 8 -> 0 <= k ->
  hmask = Z.shiftl (2 ^ w - 1) k ->
  (shift, mask) = decode_bitfield hmask ->
  table = bind_tables 8 0 mask old ->
  shift = k /\ mask = 2 ^ w - 1
  /\ table = Some (get_convert_table (w - 1))
  /\ channel_byte ct table shift mask pixel
     = Some (Z.land (Z.shiftr pixel k) (2 ^ w - 1) * 255 / (2 ^ w - 1)).
Proof.
  intros Hct Hw Hk -> Hdec ->.
  destruct (run_mask_odd w Hw) as [Hpos Hodd].
  rewrite (decode_bitfield_shiftl _ k Hpos Hodd Hk) in Hdec.
  injection Hdec as -> ->.
  rewrite (bind_tables_bound w old Hw).
  repeat split.
  apply channel_byte_scaled; [exact Hw|]. apply tables_built_inv, Hct.
Qed.

(** X7: a BitFields channel is decoded end to end.  When the header mask of
    a colour channel is a run of [w] set bits (1 to 8) starting at bit [k],
    [start] gives the channel the shift [k], the mask [2^w - 1] and the table
    of width [w], and the byte it contributes to a pixel word [p] is
    [floor (v * 255 / (2^w - 1))] for the field [v = (p >> k) & (2^w - 1)]. *)
Theorem bitfield_channel_decoded rd g rd' g' :
  globals_ok g -> compression rd = BitFields ->
  start rd g = Some (rd', g') ->
  (forall w k pixel, 1 <= w <= 8 -> 0 <= k ->
     red_mask rd = Z.shiftl (2 ^ w - 1) k ->
     rs rd' = k /\ rm rd' = 2 ^ w - 1
     /\ rtable rd' = Some (get_convert_table (w - 1))
     /\ channel_byte (convert_table g') (rtable rd') (rs rd') (rm rd') pixel
        = Some (Z.land (Z.shiftr pixel k) (2 ^ w - 1) * 255 / (2 ^ w - 1)))
  /\ (forall w k pixel, 1 <= w <= 8 -> 0 <= k ->
     green_mask rd = Z.shiftl (2 ^ w - 1) k ->
     gs rd' = k /\ gm rd' = 2 ^ w - 1
     /\ gtable rd' = Some (get_convert_table (w - 1))
     /\ channel_byte (convert_table g') (gtable rd') (gs rd') (gm rd') pixel
        = Some (Z.land (Z.shiftr pixel k) (2 ^ w - 1) * 255 / (2 ^ w - 1)))
  /\ (forall w k pixel, 1 <= w <= 8 -> 0 <= k ->
     blue_mask rd = Z.shiftl (2 ^ w - 1) k ->
     bs rd' = k /\ bm rd' = 2 ^ w - 1
     /\ btable rd' = Some (get_convert_table (w - 1))
     /\ channel_byte (convert_table g') (btable rd') (bs rd') (bm rd') pixel
        = Some (Z.land (Z.shiftr pixel k) (2 ^ w - 1) * 255 / (2 ^ w - 1))).
Proof.
  intros Hg Hc Hs.
  destruct (start_globals rd g Hg) as (rd2 & g2 & Hs2 & _ & _ & Hct & _).
  rewrite Hs in Hs2. injection Hs2 as <- <-.
  destruct (start_result _ _ _ _ Hs)
    as (_&_&_&_&_&_&_&Ers&Erm&Egs&Egm&Ebs&Ebm&_&_&Hrt&Hgt&Hbt&_).
  destruct (start_masks_bitfields rd Hc) as (Dr & Dg & Db & _).
  rewrite <- Ers, <- Erm in Dr. rewrite <- Egs, <- Egm in Dg.
  rewrite <- Ebs, <- Ebm in Db.
  split; [|split]; intros w k pixel Hw Hk Hm.
  - exact (run_channel_scaled _ _ _ _ _ _ w k pixel Hct Hw Hk Hm Dr Hrt).
  - exact (run_channel_scaled _ _ _ _ _ _ w k pixel Hct Hw Hk Hm Dg Hgt).
  - exact (run_channel_scaled _ _ _ _ _ _ w k pixel Hct Hw Hk Hm Db Hbt).
Qed.

Lemma bitfield_channel_decoded_witness :
  exists rd' g',
    start reader_1555 initial_globals = Some (rd', g')
    /\ rs rd' = 10 /\ rm rd' = 2 ^ 5 - 1
    /\ channel_byte (convert_table g') (rtable rd') (rs rd') (rm rd') 0x7C00
       = Some (Z.land (Z.shiftr 0x7C00 10) (2 ^ 5 - 1) * 255 / (2 ^ 5 - 1)).
Proof.
  destruct (start_returns reader_1555 initial_globals eq_refl)
    as (ct' & Hs & _).
  eexists _, _. split; [exact Hs|].
  destruct (bitfield_channel_decoded reader_1555 initial_globals _ _
              initial_globals_ok eq_refl Hs)
    as (Hred & _ & _).
  destruct (Hred 5 10 0x7C00 ltac:(lia) ltac:(lia) eq_refl)
    as (H1 & H2 & _ & H4).
  split; [exact H1|]. split; [exact H2|exact H4].
Defined.

(** ** The scaling of a channel *)

Lemma scale_strict n v v' :
  0 < n <= 255 -> 0 <= v < v' -> v * 255 / n < v' * 255 / n.
Proof.
  intros Hn Hv.
  assert (H : v * 255 / n + 1 <= v' * 255 / n).
  { rewrite <- (Z.div_add (v * 255) 1 n) by lia.
    apply Z.div_le_mono; lia. }
  lia.
Qed.

(** X8: the scaling of a bound channel loses nothing.  With the tables in
    place, a channel of width [w] (1 to 8) gives two pixel words the same
    byte only if their fields are equal; the byte never exceeds 255; and a
    channel of width 8 passes its field through unchanged. *)
Theorem channel_scaling_injective ct w shift p p' :
  tables_built ct -> 1 <= w <= 8 ->
  (channel_byte ct (Some (get_convert_table (w - 1))) shift (2 ^ w - 1) p
   = channel_byte ct (Some (get_convert_table (w - 1))) shift (2 ^ w - 1) p' ->
   Z.land (Z.shiftr p shift) (2 ^ w - 1) = Z.land (Z.shiftr p' shift) (2 ^ w - 1))
  /\ (exists x,
        channel_byte ct (Some (get_convert_table (w - 1))) shift (2 ^ w - 1) p
        = Some x /\ 0 <= x <= 255)
  /\ (w = 8 ->
      channel_byte ct (Some (get_convert_table (w - 1))) shift (2 ^ w - 1) p
      = Some (Z.land (Z.shiftr p shift) 255)).
Proof.
  intros Hct Hw.
  pose proof (tables_built_inv ct Hct) as Htab.
  rewrite !(channel_byte_scaled ct w shift _ Hw Htab).
  assert (Hpow : 2 ^ 1 <= 2 ^ w <= 2 ^ 8)
    by (split; apply Z.pow_le_mono_r; lia).
  change (2 ^ 1) with 2 in Hpow. change (2 ^ 8) with 256 in Hpow.
  assert (Hfield : forall q, 0 <= Z.land (Z.shiftr q shift) (2 ^ w - 1) < 2 ^ w).
  { intros q. replace (2 ^ w - 1) with (Z.ones w)
      by (rewrite Z.ones_equiv; lia).
    rewrite Z.land_ones by lia. apply Z.mod_pos_bound. lia. }
  pose proof (Hfield p) as Hp. pose proof (Hfield p') as Hp'.
  set (v := Z.land (Z.shiftr p shift) (2 ^ w - 1)) in *.
  set (v' := Z.land (Z.shiftr p' shift) (2 ^ w - 1)) in *.
  split; [|split].
  - intros [= E].
    destruct (Z.lt_trichotomy v v') as [Hlt|[Heq|Hgt]]; [|exact Heq|].
    + pose proof (scale_strict (2 ^ w - 1) v v' ltac:(lia) ltac:(lia)). lia.
    + pose proof (scale_strict (2 ^ w - 1) v' v ltac:(lia) ltac:(lia)). lia.
  - eexists. split; [reflexivity|]. split.
    + apply Z.div_pos; lia.
    + apply Z.div_le_upper_bound; nia.
  - intros ->. unfold v. change (2 ^ 8 - 1) with 255.
    rewrite Z.div_mul by lia. reflexivity.
Qed.

Lemma channel_scaling_injective_witness :
  exists rd' g',
    start reader_24_padded initial_globals = Some (rd', g')
    /\ channel_byte (convert_table g') (Some (get_convert_table (8 - 1))) 16
         (2 ^ 8 - 1) 0x302010 = Some (Z.land (Z.shiftr 0x302010 16) 255).
Proof.
  destruct (start_globals reader_24_padded initial_globals initial_globals_ok)
    as (rd' & g' & Hs & _ & _ & Hct & _).
  exists rd', g'. split; [exact Hs|].
  exact (proj2 (proj2 (channel_scaling_injective (convert_table g') 8 16
                         0x302010 0 Hct ltac:(lia))) eq_refl).
Defined.

(** ** The extent of the tables in the array *)

Lemma start_loop_frame n i init rd ct rd' ct' :
  0 <= i -> i + Z.of_nat n <= NUM_CONVERT_TABLES ->
  Z.of_nat (length ct) = convert_table_size ->
  start_loop n i init rd ct = Some (rd', ct') ->
  length ct' = length ct
  /\ forall x, ~ (get_convert_table i <= x < get_convert_table (i + Z.of_nat n)) ->
       load ct' x = load ct x.
Proof.
  intros Hi Hn Hlen Hrun. destruct init.
  - destruct (start_loop_built n i rd ct) as [r Hr].
    rewrite Hr in Hrun. injection Hrun as _ <-. split; reflexivity.
  - destruct (start_loop_tables n i rd ct Hi Hn Hlen)
      as (r & c & Hr & Hl & _ & Hout).
    rewrite Hr in Hrun. injection Hrun as _ <-. split; assumption.
Qed.

(** X9: [start] writes the first 510 entries of [convert_table] at most.
    The array is declared with [(2 << 10) - 2 = 2046] entries; the eight
    tables end at index 509, and every entry from index 510 on keeps the
    value it had, as does the length of the array. *)
Theorem start_leaves_upper_entries rd g rd' g' :
  Z.of_nat (length (convert_table g)) = convert_table_size ->
  start rd g = Some (rd', g') ->
  get_convert_table 7 + Z.shiftl 1 (7 + 1) = 510
  /\ length (convert_table g') = length (convert_table g)
  /\ forall x, 510 <= x -> load (convert_table g') x = load (convert_table g) x.
Proof.
  intros Hlen Hs. split; [reflexivity|].
  destruct (start_inv _ _ _ _ Hs) as (ct' & Hrun & ->).
  assert (H0 : 0 <= 0) by lia.
  assert (H8 : 0 + Z.of_nat 8 <= NUM_CONVERT_TABLES)
    by (unfold NUM_CONVERT_TABLES; lia).
  destruct (start_loop_frame 8 0 _ _ _ _ _ H0 H8 Hlen Hrun) as [Hl Hout].
  split; [exact Hl|]. intros x Hx. apply Hout.
  change (get_convert_table (0 + Z.of_nat 8)) with 510. lia.
Qed.

Lemma start_leaves_upper_entries_witness :
  exists rd' g',
    start reader_24_padded initial_globals = Some (rd', g')
    /\ load (convert_table g') 510 = load (convert_table initial_globals) 510.
Proof.
  destruct (start_returns reader_24_padded initial_globals eq_refl)
    as (ct' & Hs & _).
  eexists _, _. split; [exact Hs|].
  exact (proj2 (proj2 (start_leaves_upper_entries reader_24_padded
                         initial_globals _ _ eq_refl Hs))
           510 ltac:(lia)).
Defined.

(** ** Rows that lie beyond the buffer *)

Lemma channel_byte_zero_pixel ct t shift mask :
  tables_built ct -> points_to_table t ->
  channel_byte ct t shift mask 0 = Some 0.
Proof.
  intros Hct (w & Hw & ->). unfold channel_byte, table_at. simpl.
  rewrite Z.shiftr_0_l, Z.land_0_l.
  assert (2 ^ 1 <= 2 ^ w) by (apply Z.pow_le_mono_r; lia).
  rewrite (Hct w 0 Hw) by lia. reflexivity.
Qed.

Lemma read_line_loops_beyond rd ct f n lb :
  tables_built ct ->
  points_to_table (rtable rd) -> points_to_table (gtable rd) ->
  points_to_table (btable rd) ->
  (forall i, 0 <= i < Z.of_nat n ->
     to_size_t (data_size rd + bpp rd) <= to_size_t (lb + i * bpp rd)) ->
  read_line_argb_loop rd ct f n lb = Some (replicate (4 * n) 0)
  /\ read_line_abgr_loop rd ct f n lb = Some (replicate (4 * n) 0).
Proof.
  intros Hct Hr Hg Hb. revert lb.
  induction n as [|n IH]; intros lb Hfar; [split; reflexivity|].
  replace (4 * S n)%nat with (S (S (S (S (4 * n))))) by lia.
  rewrite read_line_argb_loop_step, read_line_abgr_loop_step.
  rewrite fetch_pixel_beyond_slack
    by (specialize (Hfar 0 ltac:(lia)); rewrite Z.mul_0_l, Z.add_0_r in Hfar;
        exact Hfar).
  cbn [mbind option_bind].
  rewrite !channel_byte_zero_pixel by assumption.
  cbn [mbind option_bind].
  destruct (IH (lb + bpp rd)) as [-> ->].
  { intros i Hi. specialize (Hfar (i + 1) ltac:(lia)).
    replace (lb + bpp rd + i * bpp rd) with (lb + (i + 1) * bpp rd) by lia.
    exact Hfar. }
  split; reflexivity.
Qed.

(** X10: a row whose pixels all lie at or beyond [data_size + bpp] is
    decoded without a single read and is all zero.  With the tables in place
    and the three colour channels bound, if the line of the row and its
    [int] offset [stride * line] exist and every pixel offset of the row (as
    a [size_t], so also an offset that is negative as a pointer difference)
    is at least [data_size + bpp], both readers return [4 * width] zero
    bytes. *)
Theorem rows_beyond_buffer_are_zero rd ct row line lb :
  tables_built ct ->
  points_to_table (rtable rd) -> points_to_table (gtable rd) ->
  points_to_table (btable rd) ->
  0 <= bpp rd <= 3 ->
  source_line rd row = Some line -> line_offset rd line = Some lb ->
  (forall i, 0 <= i < width rd ->
     to_size_t (data_size rd + bpp rd) <= to_size_t (lb + i * bpp rd)) ->
  read_line_argb rd ct row = Some (replicate (4 * Z.to_nat (width rd)) 0)
  /\ read_line_abgr rd ct row = Some (replicate (4 * Z.to_nat (width rd)) 0).
Proof.
  intros Hct Hr Hg Hb Hbpp Hline Hlb Hfar.
  assert (Hf : exists f, read_fn_for_bpp (bpp rd) = Some f).
  { assert (bpp rd = 0 \/ bpp rd = 1 \/ bpp rd = 2 \/ bpp rd = 3) as H by lia.
    destruct H as [->|[->|[->| ->]]]; eexists; reflexivity. }
  destruct Hf as [f Hf].
  rewrite (read_line_argb_of _ _ _ _ _ _ Hline Hlb Hf).
  rewrite (read_line_abgr_of _ _ _ _ _ _ Hline Hlb Hf).
  apply (read_line_loops_beyond rd ct f); try assumption.
  intros i Hi. apply Hfar. lia.
Qed.

Lemma rows_beyond_buffer_are_zero_witness :
  exists rd' g',
    start reader_16_truncated initial_globals = Some (rd', g')
    /\ source_line rd' 2 = Some 2 /\ line_offset rd' 2 = Some 8
    /\ read_line_argb rd' (convert_table g') 2 = Some [0; 0; 0; 0].
Proof.
  destruct (start_globals reader_16_truncated initial_globals
              initial_globals_ok) as (rd' & g' & Hs & _ & _ & Hct & _).
  exists rd', g'. split; [exact Hs|].
  pose proof (start_reader _ _ _ _ Hs) as Hrd.
  assert (Hw : width rd' = 1) by (rewrite Hrd; reflexivity).
  assert (Hline : source_line rd' 2 = Some 2) by (rewrite Hrd; reflexivity).
  assert (Hlb : line_offset rd' 2 = Some 8) by (rewrite Hrd; reflexivity).
  assert (Ht : points_to_table (rtable rd') /\ points_to_table (gtable rd')
               /\ points_to_table (btable rd')).
  { rewrite Hrd. repeat split; exists 5; (split; [lia|reflexivity]). }
  destruct Ht as (Hr & Hg & Hb).
  assert (Hbpp : 0 <= bpp rd' <= 3) by (rewrite Hrd; vm_compute; split; discriminate).
  assert (Hfar : forall i, 0 <= i < width rd' ->
            to_size_t (data_size rd' + bpp rd') <= to_size_t (8 + i * bpp rd')).
  { intros i Hi. assert (i = 0) as -> by lia. rewrite Hrd. vm_compute.
    discriminate. }
  split; [exact Hline|]. split; [exact Hlb|].
  pose proof (proj1 (rows_beyond_buffer_are_zero rd' (convert_table g') 2 2 8
                       Hct Hr Hg Hb Hbpp Hline Hlb Hfar)) as H.
  rewrite Hw in H. exact H.
Defined.

(** ** Rows of uncompressed pixels inside the buffer *)

Lemma byte_at_buffer buf offset k :
  0 <= offset -> 0 <= k -> offset + k < Z.of_nat (length buf) ->
  offset + k < 2 ^ 64 ->
  exists c, byte_at buf offset k = Some c /\ to_u8 c = buffer_byte buf (offset + k).
Proof.
  intros Ho Hk Hlt H64. unfold byte_at, buffer_byte.
  rewrite to_size_t_small by lia. unfold load.
  destruct (Z.ltb_spec (offset + k) 0); [lia|].
  destruct (lookup_lt_is_Some_2 buf (Z.to_nat (offset + k)) ltac:(lia)) as [c Hc].
  exists c. rewrite Hc. split; reflexivity.
Qed.

(** What the row readers need of a reader: the channel members of an
    uncompressed format of [w]-bit channels, bound to the table of width
    [w]. *)
Lemma uncompressed_channels rd g rd' g' :
  globals_ok g -> compression rd = RGB -> depth_ok rd ->
  start rd g = Some (rd', g') ->
  tables_built (convert_table g')
  /\ data_ptr rd' = data_ptr rd /\ width rd' = width rd
  /\ height rd' = height rd /\ stride rd' = stride rd /\ data rd' = data rd
  /\ bpp rd' = bpp rd
  /\ (depth rd = 16 ->
      rs rd' = 10 /\ gs rd' = 5 /\ bs rd' = 0
      /\ rm rd' = 31 /\ gm rd' = 31 /\ bm rd' = 31
      /\ rtable rd' = Some (get_convert_table (5 - 1))
      /\ gtable rd' = Some (get_convert_table (5 - 1))
      /\ btable rd' = Some (get_convert_table (5 - 1)))
  /\ (depth rd = 24 \/ depth rd = 32 ->
      rs rd' = 16 /\ gs rd' = 8 /\ bs rd' = 0
      /\ rm rd' = 255 /\ gm rd' = 255 /\ bm rd' = 255
      /\ rtable rd' = Some (get_convert_table (8 - 1))
      /\ gtable rd' = Some (get_convert_table (8 - 1))
      /\ btable rd' = Some (get_convert_table (8 - 1))).
Proof.
  intros Hg Hc Hdep Hs.
  destruct (start_globals rd g Hg) as (rd2 & g2 & Hs2 & _ & _ & Hct & _).
  rewrite Hs in Hs2. injection Hs2 as <- <-.
  destruct (start_result _ _ _ _ Hs)
    as (Hbuf&Hw&Hh&Hd&_&Hst&Hda&Ers&Erm&Egs&Egm&Ebs&Ebm&_&_&Hrt&Hgt&Hbt&_).
  split; [exact Hct|]. repeat (split; [assumption|]).
  split; [unfold bpp; rewrite Hd; reflexivity|]. split.
  - intros H16.
    destruct (start_masks_rgb555 rd Hc H16) as (F1&F2&F3&F4&F5&F6&_).
    rewrite F1 in Ers. rewrite F2 in Erm. rewrite F3 in Egs.
    rewrite F4 in Egm. rewrite F5 in Ebs. rewrite F6 in Ebm.
    rewrite Hrt, Hgt, Hbt, Erm, Egm, Ebm.
    repeat (split; [assumption|]).
    repeat split; apply (bind_tables_bound 5); lia.
  - intros H24.
    destruct (start_masks_rgb888 rd Hc H24) as (F1&F2&F3&F4&F5&F6&_).
    rewrite F1 in Ers. rewrite F2 in Erm. rewrite F3 in Egs.
    rewrite F4 in Egm. rewrite F5 in Ebs. rewrite F6 in Ebm.
    rewrite Hrt, Hgt, Hbt, Erm, Egm, Ebm.
    repeat (split; [assumption|]).
    repeat split; apply (bind_tables_bound 8); lia.
Qed.

Lemma read_line_argb_loop_24 rd ct n lb :
  tables_built ct -> bpp rd = 3 ->
  rs rd = 16 -> gs rd = 8 -> bs rd = 0 ->
  rm rd = 255 -> gm rd = 255 -> bm rd = 255 ->
  rtable rd = Some (get_convert_table (8 - 1)) ->
  gtable rd = Some (get_convert_table (8 - 1)) ->
  btable rd = Some (get_convert_table (8 - 1)) ->
  data_size rd + 3 < 2 ^ 64 ->
  0 <= lb -> lb + 3 * Z.of_nat n < data_size rd \/ n = O ->
  forall f, read_fn_for_bpp 3 = Some f ->
  read_line_argb_loop rd ct f n lb = Some (bgra_of_24 (data_ptr rd) n lb).
Proof.
  intros Hct Hbpp Ers Egs Ebs Erm Egm Ebm Tr Tg Tb H64.
  pose proof (tables_built_inv ct Hct) as Htab.
  revert lb. induction n as [|n IH]; intros lb Hlb Hin f Hf; [reflexivity|].
  destruct Hin as [Hin|Hin]; [|discriminate].
  injection Hf as <-.
  rewrite read_line_argb_loop_step.
  unfold data_size in *.
  destruct (byte_at_buffer (data_ptr rd) lb 0) as (c0 & B0 & U0); try lia.
  destruct (byte_at_buffer (data_ptr rd) lb 1) as (c1 & B1 & U1); try lia.
  destruct (byte_at_buffer (data_ptr rd) lb 2) as (c2 & B2 & U2); try lia.
  destruct (byte_at_buffer (data_ptr rd) lb 3) as (c3 & B3 & U3); try lia.
  rewrite Z.add_0_r in U0.
  assert (Hfetch : fetch_pixel rd (Some (λ buf offset,
            a ← byte_at buf offset 0; b ← byte_at buf offset 1;
            c ← byte_at buf offset 2; d ← byte_at buf offset 3;
            Some (int_pack_32_le a b c d))) lb
          = Some (int_pack_32_le c0 c1 c2 c3)).
  { rewrite fetch_pixel_within_slack
      by (rewrite Hbpp, !to_size_t_small; unfold data_size; lia).
    rewrite to_size_t_small by lia. unfold call. simpl.
    rewrite B0, B1, B2, B3. reflexivity. }
  assert (Hch : forall shift,
            shift = 0 \/ shift = 8 \/ shift = 16 \/ shift = 24 ->
            channel_byte ct (Some (get_convert_table (8 - 1))) shift 255
              (int_pack_32_le c0 c1 c2 c3)
            = Some (to_u8 (if shift =? 0 then c0 else if shift =? 8 then c1
                           else if shift =? 16 then c2 else c3))).
  { intros shift Hshift. change 255 with (2 ^ 8 - 1) at 1.
    rewrite (channel_byte_scaled ct 8 shift _ ltac:(lia) Htab).
    change (2 ^ 8 - 1) with 255.
    rewrite (int_pack_32_le_byte c0 c1 c2 c3 shift Hshift).
    rewrite Z.div_mul by lia. reflexivity. }
  rewrite Hfetch, Tr, Tg, Tb, Ers, Erm, Egs, Egm, Ebs, Ebm.
  cbn [mbind option_bind].
  rewrite (Hch 16), (Hch 8), (Hch 0) by lia.
  cbn [mbind option_bind Z.eqb Pos.eqb].
  rewrite Hbpp, (IH (lb + 3)) by (lia || reflexivity).
  cbn [mbind option_bind bgra_of_24].
  rewrite synth_alpha_spec, alpha_of_perm, U0, U1, U2. reflexivity.
Qed.

(** X11: a row of an uncompressed 24-bit image that lies inside the buffer
    with one more byte after its last pixel is decoded in full ([line] is
    the scanline of the row and [lb] its offset, both without overflow).  After
    [start], [read_line_argb] returns for each pixel its three stored bytes
    in stored order and the alpha of the three, and [read_line_abgr] the same
    with the first and third byte exchanged. *)
Theorem row_24_decoded rd g rd' g' row line lb :
  globals_ok g -> compression rd = RGB -> depth rd = 24 ->
  start rd g = Some (rd', g') ->
  data_size rd + 3 < 2 ^ 64 ->
  source_line rd row = Some line -> line_offset rd line = Some lb ->
  0 <= lb ->
  lb + 3 * width rd < data_size rd ->
  read_line_argb rd' (convert_table g') row
  = Some (bgra_of_24 (data_ptr rd) (Z.to_nat (width rd)) lb)
  /\ read_line_abgr rd' (convert_table g') row
     = Some (swap_rb (bgra_of_24 (data_ptr rd) (Z.to_nat (width rd)) lb)).
Proof.
  intros Hg Hc Hd Hs H64 Hsl Hlo Hlb Hin.
  destruct (uncompressed_channels rd g rd' g' Hg Hc
              (or_intror (or_introl Hd)) Hs)
    as (Hct & Hbuf & Hw & Hh & Hst & Hda & Hbpp & _ & H24).
  destruct (H24 (or_introl Hd)) as (Ers&Egs&Ebs&Erm&Egm&Ebm&Tr&Tg&Tb).
  assert (Hbpp3 : bpp rd' = 3) by (rewrite Hbpp; unfold bpp; rewrite Hd; reflexivity).
  assert (Hsize : data_size rd' = data_size rd)
    by (unfold data_size; rewrite Hbuf; reflexivity).
  assert (Hline : source_line rd' row = Some line)
    by (unfold source_line in *; rewrite Hh; exact Hsl).
  assert (Hoff : line_offset rd' line = Some lb)
    by (unfold line_offset in *; rewrite Hst, Hda; exact Hlo).
  assert (Hargb : read_line_argb rd' (convert_table g') row
                  = Some (bgra_of_24 (data_ptr rd) (Z.to_nat (width rd)) lb)).
  { rewrite (read_line_argb_of rd' _ row line lb (read_fns !!! 3%nat) Hline Hoff)
      by (rewrite Hbpp3; reflexivity).
    rewrite Hw, <- Hbuf.
    apply read_line_argb_loop_24; try assumption; try reflexivity.
    - rewrite Hsize. exact H64.
    - rewrite Hsize. destruct (Z.to_nat (width rd)) eqn:E; [right; reflexivity|].
      left. lia. }
  split; [exact Hargb|].
  rewrite (read_line_abgr_of rd' _ row line lb (read_fns !!! 3%nat) Hline Hoff)
    by (rewrite Hbpp3; reflexivity).
  rewrite (read_line_argb_of rd' _ row line lb (read_fns !!! 3%nat) Hline Hoff)
    in Hargb by (rewrite Hbpp3; reflexivity).
  rewrite read_line_loops_swap, Hargb. reflexivity.
Qed.

Lemma row_24_decoded_witness :
  exists rd' g',
    start reader_24_padded initial_globals = Some (rd', g')
    /\ read_line_argb rd' (convert_table g') 0
       = Some (bgra_of_24 (data_ptr reader_24_padded) 1 0).
Proof.
  destruct (start_returns reader_24_padded initial_globals eq_refl)
    as (ct' & Hs & _).
  eexists _, _. split; [exact Hs|].
  refine (proj1 (row_24_decoded reader_24_padded initial_globals _ _ 0 0 0
                   initial_globals_ok eq_refl eq_refl Hs _ _ _ _ _));
    vm_compute; reflexivity || discriminate.
Defined.

Lemma field_of_16_bits a b c k :
  0 <= k -> k + 5 <= 16 ->
  Z.land (Z.shiftr (int_pack_32_le a b c 0) k) 31
  = Z.land (Z.shiftr (int_pack_16_le a b) k) 31.
Proof.
  intros Hk Hk5. apply Z.bits_inj'. intros n Hn.
  change 31 with (Z.ones 5).
  rewrite !Z.land_spec, !Z.testbit_ones_nonneg, !Z.shiftr_spec by lia.
  destruct (Z.ltb_spec n 5); [|rewrite !andb_false_r; reflexivity].
  rewrite !andb_true_r. unfold int_pack_32_le, int_pack_16_le.
  rewrite !Z.lor_spec, !shiftl_u8_bits by lia.
  destruct (Z.leb_spec 16 (n + k)); [lia|].
  destruct (Z.leb_spec 24 (n + k)); [lia|].
  rewrite !andb_false_r, !orb_false_r. reflexivity.
Qed.

Lemma to_u8_idem z : to_u8 (to_u8 z) = to_u8 z.
Proof. apply to_u8_small, to_u8_range. Qed.

Lemma int_pack_16_le_u8 a b :
  int_pack_16_le (to_u8 a) (to_u8 b) = int_pack_16_le a b.
Proof. unfold int_pack_16_le. rewrite !to_u8_idem. reflexivity. Qed.

Lemma read_line_argb_loop_16 rd ct n lb :
  tables_built ct -> bpp rd = 2 ->
  rs rd = 10 -> gs rd = 5 -> bs rd = 0 ->
  rm rd = 31 -> gm rd = 31 -> bm rd = 31 ->
  rtable rd = Some (get_convert_table (5 - 1)) ->
  gtable rd = Some (get_convert_table (5 - 1)) ->
  btable rd = Some (get_convert_table (5 - 1)) ->
  data_size rd + 2 < 2 ^ 64 ->
  0 <= lb -> lb + 2 * Z.of_nat n < data_size rd \/ n = O ->
  forall f, read_fn_for_bpp 2 = Some f ->
  read_line_argb_loop rd ct f n lb = Some (bgra_of_16 (data_ptr rd) n lb).
Proof.
  intros Hct Hbpp Ers Egs Ebs Erm Egm Ebm Tr Tg Tb H64.
  pose proof (tables_built_inv ct Hct) as Htab.
  revert lb. induction n as [|n IH]; intros lb Hlb Hin f Hf; [reflexivity|].
  destruct Hin as [Hin|Hin]; [|discriminate].
  injection Hf as <-.
  rewrite read_line_argb_loop_step.
  unfold data_size in *.
  destruct (byte_at_buffer (data_ptr rd) lb 0) as (c0 & B0 & U0); try lia.
  destruct (byte_at_buffer (data_ptr rd) lb 1) as (c1 & B1 & U1); try lia.
  destruct (byte_at_buffer (data_ptr rd) lb 2) as (c2 & B2 & _); try lia.
  rewrite Z.add_0_r in U0.
  assert (Hfetch : fetch_pixel rd (Some (λ buf offset,
            a ← byte_at buf offset 0; b ← byte_at buf offset 1;
            c ← byte_at buf offset 2;
            Some (int_pack_32_le a b c 0))) lb
          = Some (int_pack_32_le c0 c1 c2 0)).
  { rewrite fetch_pixel_within_slack
      by (rewrite Hbpp, !to_size_t_small; unfold data_size; lia).
    rewrite to_size_t_small by lia. unfold call. simpl.
    rewrite B0, B1, B2. reflexivity. }
  assert (Hch : forall shift, 0 <= shift -> shift + 5 <= 16 ->
            channel_byte ct (Some (get_convert_table (5 - 1))) shift 31
              (int_pack_32_le c0 c1 c2 0)
            = Some (field5 (int_pack_16_le (buffer_byte (data_ptr rd) lb)
                              (buffer_byte (data_ptr rd) (lb + 1))) shift)).
  { intros shift Hsh Hsh5. change 31 with (2 ^ 5 - 1) at 1.
    rewrite (channel_byte_scaled ct 5 shift _ ltac:(lia) Htab).
    change (2 ^ 5 - 1) with 31. rewrite field_of_16_bits by lia.
    rewrite <- U0, <- U1, int_pack_16_le_u8. reflexivity. }
  rewrite Hfetch, Tr, Tg, Tb, Ers, Erm, Egs, Egm, Ebs, Ebm.
  cbn [mbind option_bind].
  rewrite (Hch 10), (Hch 5), (Hch 0) by lia.
  cbn [mbind option_bind].
  rewrite Hbpp, (IH (lb + 2)) by (lia || reflexivity).
  cbn [mbind option_bind bgra_of_16].
  rewrite synth_alpha_spec, alpha_of_perm. reflexivity.
Qed.

(** X12: a row of an uncompressed 16-bit image that lies inside the buffer
    with one more byte after its last pixel is decoded in full as 5-5-5
    ([line] is the scanline of the row and [lb] its offset, both without
    overflow).  After [start], [read_line_argb] returns for each pixel the fields at
    bits 0, 5 and 10 of its little-endian word, each scaled by
    [* 255 / 31], and the alpha of the three; bit 15 and the byte that
    follows the pixel do not show. *)
Theorem row_16_decoded rd g rd' g' row line lb :
  globals_ok g -> compression rd = RGB -> depth rd = 16 ->
  start rd g = Some (rd', g') ->
  data_size rd + 2 < 2 ^ 64 ->
  source_line rd row = Some line -> line_offset rd line = Some lb ->
  0 <= lb ->
  lb + 2 * width rd < data_size rd ->
  read_line_argb rd' (convert_table g') row
  = Some (bgra_of_16 (data_ptr rd) (Z.to_nat (width rd)) lb)
  /\ read_line_abgr rd' (convert_table g') row
     = Some (swap_rb (bgra_of_16 (data_ptr rd) (Z.to_nat (width rd)) lb)).
Proof.
  intros Hg Hc Hd Hs H64 Hsl Hlo Hlb Hin.
  destruct (uncompressed_channels rd g rd' g' Hg Hc (or_introl Hd) Hs)
    as (Hct & Hbuf & Hw & Hh & Hst & Hda & Hbpp & H16 & _).
  destruct (H16 Hd) as (Ers&Egs&Ebs&Erm&Egm&Ebm&Tr&Tg&Tb).
  assert (Hbpp2 : bpp rd' = 2) by (rewrite Hbpp; unfold bpp; rewrite Hd; reflexivity).
  assert (Hsize : data_size rd' = data_size rd)
    by (unfold data_size; rewrite Hbuf; reflexivity).
  assert (Hline : source_line rd' row = Some line)
    by (unfold source_line in *; rewrite Hh; exact Hsl).
  assert (Hoff : line_offset rd' line = Some lb)
    by (unfold line_offset in *; rewrite Hst, Hda; exact Hlo).
  assert (Hargb : read_line_argb rd' (convert_table g') row
                  = Some (bgra_of_16 (data_ptr rd) (Z.to_nat (width rd)) lb)).
  { rewrite (read_line_argb_of rd' _ row line lb (read_fns !!! 2%nat) Hline Hoff)
      by (rewrite Hbpp2; reflexivity).
    rewrite Hw, <- Hbuf.
    apply read_line_argb_loop_16; try assumption; try reflexivity.
    - rewrite Hsize. exact H64.
    - rewrite Hsize. destruct (Z.to_nat (width rd)) eqn:E; [right; reflexivity|].
      left. lia. }
  split; [exact Hargb|].
  rewrite (read_line_abgr_of rd' _ row line lb (read_fns !!! 2%nat) Hline Hoff)
    by (rewrite Hbpp2; reflexivity).
  rewrite (read_line_argb_of rd' _ row line lb (read_fns !!! 2%nat) Hline Hoff)
    in Hargb by (rewrite Hbpp2; reflexivity).
  rewrite read_line_loops_swap, Hargb. reflexivity.
Qed.

Lemma row_16_decoded_witness :
  exists rd' g',
    start reader_16_bottom_up initial_globals = Some (rd', g')
    /\ read_line_argb rd' (convert_table g') 0
       = Some (bgra_of_16 (data_ptr reader_16_bottom_up) 1 12).
Proof.
  destruct (start_returns reader_16_bottom_up initial_globals eq_refl)
    as (ct' & Hs & _).
  eexists _, _. split; [exact Hs|].
  refine (proj1 (row_16_decoded reader_16_bottom_up initial_globals _ _ 0 3 12
                   initial_globals_ok eq_refl eq_refl Hs _ _ _ _ _));
    vm_compute; reflexivity || discriminate.
Defined.

(** ** Which BitFields masks are accepted *)

Lemma decode_bitfield_span m : mask_bits (snd (decode_bitfield m)) = mask_span m.
Proof.
  destruct m as [|p|p]; try reflexivity.
  unfold decode_bitfield, mask_span, builtin_ctz.
  destruct (decode_bitfield_loop_spec p 0) as (mk & -> & _ & Hpos & Hsh).
  pose proof (pos_ctz_nonneg p) as Hc. simpl snd.
  destruct (Z.leb_spec (Z.pos p) 0); [lia|].
  unfold mask_bits. destruct (Z.leb_spec mk 0); [lia|].
  rewrite <- Hsh, Z.shiftl_mul_pow2 by lia.
  rewrite Z.log2_mul_pow2 by lia. lia.
Qed.

(** X13: which BitFields masks pass [check_format] after [start].  With
    dimensions and depth in range, the format is accepted exactly when each
    of the four header masks is 0 or has its lowest and highest set bit
    less than 8 positions apart; gaps between the two do not matter, and
    the only possible rejection is "Bit mask too long". *)
Theorem bitfields_accepted_by_span rd g rd' g' :
  compression rd = BitFields -> dims_ok rd -> depth_ok rd ->
  start rd g = Some (rd', g') ->
  (check_format rd' = None <->
     mask_span (red_mask rd) <= 8 /\ mask_span (green_mask rd) <= 8
     /\ mask_span (blue_mask rd) <= 8 /\ mask_span (alpha_mask rd) <= 8)
  /\ (check_format rd' = None
      \/ check_format rd' = Some "Bit mask too long"%string).
Proof.
  intros Hc Hdim Hdep Hs.
  destruct (start_result _ _ _ _ Hs)
    as (_&Hw&Hh&Hd&Hco&_&_&Ers&Erm&Egs&Egm&Ebs&Ebm&Eas&Eam&_).
  destruct (start_masks_bitfields rd Hc) as (Dr & Dg & Db & Da).
  assert (Hspan : masks_ok rd' <->
            mask_span (red_mask rd) <= 8 /\ mask_span (green_mask rd) <= 8
            /\ mask_span (blue_mask rd) <= 8 /\ mask_span (alpha_mask rd) <= 8).
  { unfold masks_ok. rewrite Erm, Egm, Ebm, Eam.
    rewrite <- !decode_bitfield_span, <- Dr, <- Dg, <- Db, <- Da. reflexivity. }
  assert (Hdim' : dims_ok rd') by (unfold dims_ok in *; rewrite Hw, Hh; exact Hdim).
  assert (Hdep' : depth_ok rd') by (unfold depth_ok in *; rewrite Hd; exact Hdep).
  assert (Hco' : compression_ok rd')
    by (unfold compression_ok; rewrite Hco; right; exact Hc).
  destruct (check_format_cases rd') as [C|[C|[C|[C|[C|C]]]]].
  - exfalso. unfold dims_ok in Hdim'. lia.
  - exfalso. tauto.
  - exfalso. tauto.
  - exfalso. tauto.
  - destruct C as (_&_&_&Hno&->). split; [|right; reflexivity].
    rewrite <- Hspan. split; [discriminate|tauto].
  - destruct C as (_&_&_&Hok&->). split; [|left; reflexivity].
    rewrite <- Hspan. tauto.
Qed.

Lemma bitfields_accepted_by_span_witness :
  exists rd' g',
    start (new_reader [] 1 1 16 BitFields 0x0500 0x00E0 0x001F 0 4 0)
      initial_globals = Some (rd', g')
    /\ check_format rd' = None.
Proof.
  destruct (start_returns
              (new_reader [] 1 1 16 BitFields 0x0500 0x00E0 0x001F 0 4 0)
              initial_globals eq_refl) as (ct' & Hs & _).
  eexists _, _. split; [exact Hs|].
  refine (proj2 (proj1 (bitfields_accepted_by_span
                          (new_reader [] 1 1 16 BitFields 0x0500 0x00E0 0x001F 0 4 0)
                          initial_globals _ _ eq_refl _ _ Hs)) _).
  - unfold dims_ok. simpl. lia.
  - left. reflexivity.
  - vm_compute. repeat split; discriminate.
Defined.

Lemma readers_differ_in_byte_order_witness :
  exists rd' g',
    start reader_16_top_down initial_globals = Some (rd', g')
    /\ read_line_abgr rd' (convert_table g') 0
       = swap_rb <$> read_line_argb rd' (convert_table g') 0.
Proof.
  destruct (start_returns reader_16_top_down initial_globals eq_refl)
    as (ct' & Hs & _).
  eexists _, _. split; [exact Hs|].
  exact (proj1 (readers_differ_in_byte_order _ _ 0)).
Defined.
